(** * HistoryCache: merge, prune and delta-fetch logic of
      [apps/predbat/history_cache.py], embedded shallowly.

    A Python object graph becomes explicit data:
    - history items are JSON-like values ([pyval]);
    - a [datetime] is the number of microseconds since [datetime.min]
      (all timestamps of one run share one awareness, so they are totally
      ordered, as Home Assistant delivers them);
    - [self.cache_data] is a finite map from entity key to entry;
    - the caller-supplied [fetch_func] is a function that either returns a
      value or raises; every invocation is logged so that "called once,
      with this window" can be stated;
    - the re-entrant lock is not modelled: each call is one atomic step. *)

From Stdlib Require Import NArith Ascii String List Permutation Sorted Lia.
From stdpp Require Import base decidable option list gmap strings.

Local Open Scope string_scope.
Local Open Scope list_scope.
Local Open Scope N_scope.

#[local] Set Warnings "-register-all".

(** ** Python values *)

Inductive pyval :=
| PNone
| PBool (b : bool)
| PInt (z : Z)
| PStr (s : string)
| PList (l : list pyval)
| PDict (d : list (string * pyval)).

(** Python truthiness ([if x:]). *)
Definition truthy (v : pyval) : bool :=
  match v with
  | PNone => false
  | PBool b => b
  | PInt z => negb (Z.eqb z 0)
  | PStr s => negb (String.eqb s "")
  | PList l => match l with [] => false | _ => true end
  | PDict d => match d with [] => false | _ => true end
  end.

(** [isinstance(x, dict)]. *)
Definition is_dict (v : pyval) : bool :=
  match v with PDict _ => true | _ => false end.

(** [d.get(k)]: the value under [k], or [None] when the key is missing. *)
Fixpoint dict_get (k : string) (d : list (string * pyval)) : pyval :=
  match d with
  | [] => PNone
  | (k', v) :: rest => if String.eqb k k' then v else dict_get k rest
  end.

(** [str.lower()] on ASCII text; other bytes are left as they are. *)
Definition lower_ascii (a : ascii) : ascii :=
  let n := N_of_ascii a in
  if (65 <=? n) && (n <=? 90) then ascii_of_N (n + 32) else a.

Fixpoint lower (s : string) : string :=
  match s with
  | EmptyString => EmptyString
  | String a rest => String (lower_ascii a) (lower rest)
  end.

(** ** Time *)

(** Microseconds since [datetime.min]. *)
Definition datetime := N.
Definition datetime_min : datetime := 0.

(** A parser for the one shape of ISO-8601 text that Home Assistant sends,
    [YYYY-MM-DDTHH:MM:SS+00:00]; on that shape it agrees with
    [datetime.fromisoformat] (the proleptic Gregorian ordinal of
    [datetime.py]: [_days_before_year], [_days_before_month], [_ymd2ord]).
    The development is stated for an arbitrary [fromisoformat]; this one
    serves to run the cache on concrete records. *)
Module Iso.

Definition digit (a : ascii) : option N :=
  let n := N_of_ascii a in
  if (48 <=? n) && (n <=? 57) then Some (n - 48) else None.

Fixpoint number (acc : N) (l : list ascii) : option N :=
  match l with
  | [] => Some acc
  | a :: rest =>
      match digit a with
      | Some d => number (10 * acc + d) rest
      | None => None
      end
  end.

Definition is_leap (year : N) : bool :=
  (year mod 4 =? 0) && (negb (year mod 100 =? 0) || (year mod 400 =? 0)).

Definition days_before_year (year : N) : N :=
  let y := year - 1 in y * 365 + y / 4 - y / 100 + y / 400.

Definition days_in_month (year month : N) : N :=
  if (month =? 2) && is_leap year then 29
  else nth (N.to_nat month) [0; 31; 28; 31; 30; 31; 30; 31; 31; 30; 31; 30; 31] 0.

Definition days_before_month (year month : N) : N :=
  nth (N.to_nat month) [0; 0; 31; 59; 90; 120; 151; 181; 212; 243; 273; 304; 334] 0
  + (if (2 <? month) && is_leap year then 1 else 0).

Definition ymd2ord (year month day : N) : N :=
  days_before_year year + days_before_month year month + day.

Definition is_char (c : string) (a : ascii) : bool :=
  String.eqb c (String a EmptyString).

Definition fromisoformat (s : string) : option datetime :=
  match list_ascii_of_string s with
  | [y1; y2; y3; y4; c1; m1; m2; c2; d1; d2; c3; h1; h2; c4; n1; n2; c5; s1; s2;
     z1; z2; z3; z4; z5; z6] =>
      if is_char "-" c1 && is_char "-" c2 && is_char "T" c3
         && is_char ":" c4 && is_char ":" c5
         && String.eqb (string_of_list_ascii [z1; z2; z3; z4; z5; z6]) "+00:00"
      then
        match number 0 [y1; y2; y3; y4], number 0 [m1; m2], number 0 [d1; d2],
              number 0 [h1; h2], number 0 [n1; n2], number 0 [s1; s2] with
        | Some year, Some month, Some day, Some hour, Some minute, Some second =>
            if (1 <=? year) && (1 <=? month) && (month <=? 12)
               && (1 <=? day) && (day <=? days_in_month year month)
               && (hour <? 24) && (minute <? 60) && (second <? 60)
            then
              Some (((((ymd2ord year month day - 1) * 24 + hour) * 60 + minute) * 60
                     + second) * 1000000)
            else None
        | _, _, _, _, _, _ => None
        end
      else None
  | _ => None
  end.

End Iso.

(** ** Cache state *)

(** One value of [self.cache_data]: [{"data": [...], "latest": ...}]. *)
Record CacheEntry := mkEntry {
  data : list pyval;
  latest : option datetime
}.

Record HistoryCache := mkCache {
  cache_data : gmap string CacheEntry;
  enabled : bool
}.

(** [__init__] *)
Definition init : HistoryCache := mkCache ∅ false.

(** [configure] *)
Definition configure (self : HistoryCache) (enabled' : bool) : HistoryCache :=
  if negb enabled' then mkCache ∅ enabled'
  else mkCache (cache_data self) enabled'.

(** ** The fetch function and the result of a call *)

Definition exn := string.

Inductive fetch_result :=
| FetchReturn (new_data : option (list pyval))
| FetchRaise (e : exn).

(** [fetch_func(start, end, minimal)]; [start] is [None] when the entry's
    [latest] is [None]. *)
Definition fetch_fn := option datetime → datetime → bool → fetch_result.

Record fetch_call := mkCall {
  call_start : option datetime;
  call_end : datetime;
  call_minimal : bool
}.

Inductive outcome :=
| Returned (v : option (list pyval))
| Raised (e : exn).

(** What a call of [get_or_fetch] leaves behind: its outcome, the cache
    afterwards and the invocations of [fetch_func], in order. *)
Record completed := mkCompleted {
  result : outcome;
  final : HistoryCache;
  fetches : list fetch_call
}.

(** [not new_data] is false exactly for a non-empty list. *)
Definition truthy_data (new_data : option (list pyval)) : bool :=
  match new_data with
  | Some (_ :: _) => true
  | _ => false
  end.

(** ** Sample data *)

Definition t0_iso := "2024-01-15T10:30:00+00:00".
Definition t1_iso := "2024-01-15T10:35:00+00:00".
Definition t2_iso := "2024-01-15T10:40:00+00:00".
Definition T0 : datetime := 63840911400000000.
Definition T1 : datetime := 63840911700000000.
Definition T2 : datetime := 63840912000000000.
Definition t3_iso := "2024-01-15T10:45:00+00:00".
Definition T3 : datetime := 63840912300000000.

Definition record (iso : string) (v : Z) : pyval :=
  PDict [("last_changed", PStr iso); ("v", PInt v)].

Definition enabled_cache : HistoryCache := configure init true.

(** A cache that holds records at [T0], [T1] and [T2] for one sensor. *)
Definition warm_cache : HistoryCache :=
  mkCache
    {[ "sensor.temp" :=
         mkEntry [record t0_iso 1; record t1_iso 2; record t2_iso 3] (Some T2) ]}
    true.

(** Fetch functions that answer every window alike. *)
Definition fetch_const (v : option (list pyval)) : fetch_fn :=
  λ _ _ _, FetchReturn v.

Definition fetch_failing (x : exn) : fetch_fn :=
  λ _ _ _, FetchRaise x.

(** A fetch function that answers one window only and fails elsewhere. *)
Definition fetch_window (start_time : option datetime) (end_time : datetime)
    (v : option (list pyval)) : fetch_fn :=
  λ a b _,
    if bool_decide (a = start_time) && (b =? end_time) then FetchReturn v
    else FetchRaise "unexpected window".

Section HistoryCache.

(** [datetime.fromisoformat]: [None] stands for [ValueError]. *)
Variable fromisoformat : string → option datetime.

(** [_get_timestamp] *)
Definition _get_timestamp (item : pyval) : option datetime :=
  match item with
  | PDict d =>
      let timestamp_str := dict_get "last_changed" d in
      if truthy timestamp_str then
        match timestamp_str with
        | PStr s => fromisoformat s
        | _ => None (* TypeError, caught *)
        end
      else None
  | _ => None
  end.

(** The key of [existing_data.sort]:
    [self._get_timestamp(x) or datetime.min]. *)
Definition sort_key (x : pyval) : datetime :=
  default datetime_min (_get_timestamp x).

(** [list.sort(key=...)] is stable: an item goes in front of the first
    item whose key is strictly greater. *)
Fixpoint insert_sorted (x : pyval) (l : list pyval) : list pyval :=
  match l with
  | [] => [x]
  | y :: rest =>
      if sort_key x <=? sort_key y then x :: y :: rest
      else y :: insert_sorted x rest
  end.

Fixpoint sort_by_timestamp (l : list pyval) : list pyval :=
  match l with
  | [] => []
  | x :: rest => insert_sorted x (sort_by_timestamp rest)
  end.

(** Line 82-83: [[items...]] -> [items...]. *)
Definition normalize (new_data : list pyval) : list pyval :=
  match new_data with
  | PList inner :: _ => inner
  | _ => new_data
  end.

(** Line 95-96: the set comprehension over the stored items. *)
Definition existing_timestamps (existing_data : list pyval) : gset datetime :=
  list_to_set (omap _get_timestamp (List.filter is_dict existing_data)).

(** Line 108-109. *)
Definition bump (latest_time : option datetime) (timestamp : datetime)
  : option datetime :=
  match latest_time with
  | None => Some timestamp
  | Some l => if l <? timestamp then Some timestamp else Some l
  end.

(** Line 100-109: the loop over [new_data]; [seen] is computed once,
    before the loop, and is not extended while items are appended. *)
Fixpoint merge_loop (seen : gset datetime) (new_data existing_data : list pyval)
    (latest_time : option datetime) : list pyval * option datetime :=
  match new_data with
  | [] => (existing_data, latest_time)
  | item :: rest =>
      if negb (is_dict item) then merge_loop seen rest existing_data latest_time
      else
        match _get_timestamp item with
        | Some timestamp =>
            if bool_decide (timestamp ∉ seen) then
              merge_loop seen rest (existing_data ++ [item]) (bump latest_time timestamp)
            else merge_loop seen rest existing_data latest_time
        | None => merge_loop seen rest existing_data latest_time
        end
  end.

Definition empty_entry : CacheEntry := mkEntry [] None.

(** [update_cache] *)
Definition update_cache (self : HistoryCache) (entity_id : string)
    (new_data : option (list pyval)) (end_time : datetime) : HistoryCache :=
  if negb (enabled self) || negb (truthy_data new_data) then self
  else
    let new_data := normalize (default [] new_data) in
    let entity_key := lower entity_id in
    let cache_entry := default empty_entry (cache_data self !! entity_key) in
    let existing_data := data cache_entry in
    let seen := existing_timestamps existing_data in
    let '(existing_data, latest_time) :=
      merge_loop seen new_data existing_data (latest cache_entry) in
    mkCache
      (<[entity_key := mkEntry (sort_by_timestamp existing_data) latest_time]>
         (cache_data self))
      (enabled self).

(** Line 66-71: pop leading items older than [start_time]. *)
Fixpoint prune (start_time : datetime) (data : list pyval) : list pyval :=
  match data with
  | [] => []
  | first :: rest =>
      match _get_timestamp first with
      | Some ts => if ts <? start_time then prune start_time rest else data
      | None => data
      end
  end.

(** Line 73-74: the returned list comprehension. *)
Definition in_window (end_time : datetime) (item : pyval) : bool :=
  match _get_timestamp item with
  | Some ts => ts <=? end_time
  | None => false
  end.

Definition window (end_time : datetime) (data : list pyval) : list pyval :=
  List.filter (in_window end_time) data.

(** The local helper [fetch_and_update]: the fetched value (or the
    exception) and the cache afterwards. *)
Definition fetch_and_update (self : HistoryCache) (entity_id : string)
    (end_time : datetime) (fetch_func : fetch_fn) (minimal : bool)
    (fetch_start : option datetime) (fetch_end : datetime)
  : fetch_result * HistoryCache :=
  match fetch_func fetch_start fetch_end minimal with
  | FetchRaise e => (FetchRaise e, self)
  | FetchReturn new_data =>
      (FetchReturn new_data,
       if truthy_data new_data then update_cache self entity_id new_data end_time
       else self)
  end.

(** [get_or_fetch] *)
Definition get_or_fetch (self : HistoryCache) (entity_id : string)
    (start_time end_time : datetime) (fetch_func : fetch_fn) (minimal : bool)
  : completed :=
  if negb (enabled self) then
    let log := [mkCall (Some start_time) end_time minimal] in
    match fetch_func (Some start_time) end_time minimal with
    | FetchReturn v => mkCompleted (Returned v) self log
    | FetchRaise e => mkCompleted (Raised e) self log
    end
  else
    let entity_key := lower entity_id in
    match cache_data self !! entity_key with
    | None =>
        let log := [mkCall (Some start_time) end_time minimal] in
        match fetch_and_update self entity_id end_time fetch_func minimal
                (Some start_time) end_time with
        | (FetchReturn v, self') => mkCompleted (Returned v) self' log
        | (FetchRaise e, self') => mkCompleted (Raised e) self' log
        end
    | Some cache_entry =>
        let latest_time := latest cache_entry in
        let log := [mkCall latest_time end_time minimal] in
        match fetch_and_update self entity_id end_time fetch_func minimal
                latest_time end_time with
        | (FetchRaise e, self') => mkCompleted (Raised e) self' log
        | (FetchReturn _, self') =>
            (* [cache_entry] is the stored object itself: it sees the merge *)
            let cache_entry := default cache_entry (cache_data self' !! entity_key) in
            let data := prune start_time (data cache_entry) in
            mkCompleted
              (Returned (Some (window end_time data)))
              (mkCache
                 (<[entity_key := mkEntry data (latest cache_entry)]> (cache_data self'))
                 (enabled self'))
              log
        end
    end.

(** ** Vocabulary of the specification *)

(** An item is malformed when it is not a mapping or carries no parseable
    timestamp; these are the items [_get_timestamp] maps to [None]. *)
Definition malformed (item : pyval) : Prop := _get_timestamp item = None.

Definition has_timestamp (item : pyval) : bool :=
  match _get_timestamp item with Some _ => true | None => false end.

Definition timestamps (l : list pyval) : list datetime := omap _get_timestamp l.

(** Ascending (not necessarily strictly) by sort key. *)
Definition time_sorted (l : list pyval) : Prop :=
  StronglySorted (λ a b, sort_key a ≤ sort_key b) l.

(** The greater of two optional timestamps. *)
Definition later (a b : option datetime) : option datetime :=
  match a, b with
  | Some x, Some y => Some (N.max x y)
  | Some x, None => Some x
  | None, _ => b
  end.

(** The maximum timestamp among the items, [None] when no item has one. *)
Definition max_timestamp (l : list pyval) : option datetime :=
  foldr (λ item acc, later (_get_timestamp item) acc) None l.

(** [latest] is at least every stored timestamp. *)
Definition latest_bounds (e : CacheEntry) : Prop :=
  ∀ item ts, item ∈ data e → _get_timestamp item = Some ts →
    ∃ l, latest e = Some l ∧ ts ≤ l.

(** [latest] is exactly the maximum stored timestamp, absent when there
    is none. *)
Definition latest_is_max (e : CacheEntry) : Prop :=
  latest e = max_timestamp (data e).

(** Every stored item is a record with a parseable timestamp. *)
Definition stored_well_formed (e : CacheEntry) : Prop :=
  Forall (λ item, has_timestamp item = true) (data e).

(** What every mutation keeps: records only, in ascending order, none
    later than [latest]. *)
Definition entry_ok (e : CacheEntry) : Prop :=
  stored_well_formed e ∧ time_sorted (data e) ∧ latest_bounds e.

(** The invariant of the data model, with [latest] the exact maximum. *)
Definition entry_tight (e : CacheEntry) : Prop :=
  stored_well_formed e ∧ time_sorted (data e) ∧ latest_is_max e.

(** The entry after the prune of [get_or_fetch]: [latest] is not touched. *)
Definition pruned (start_time : datetime) (e : CacheEntry) : CacheEntry :=
  mkEntry (prune start_time (data e)) (latest e).

(** An item the prune removes when it is at the front. *)
Definition older (start_time : datetime) (item : pyval) : Prop :=
  ∃ ts, _get_timestamp item = Some ts ∧ ts < start_time.

(** The item carries exactly the timestamp [ts]. *)
Definition at_time (ts : datetime) (item : pyval) : bool :=
  match _get_timestamp item with
  | Some ts' => ts' =? ts
  | None => false
  end.

(** What the caller sees of a fetch: the value, or the exception. *)
Definition outcome_of (r : fetch_result) : outcome :=
  match r with
  | FetchReturn v => Returned v
  | FetchRaise e => Raised e
  end.

(** The start of the window [get_or_fetch] passes to [fetch_func]: the
    entry's [latest] when the cache is enabled and holds an entry for the
    entity, the caller's [start_time] otherwise. *)
Definition requested_start (c : HistoryCache) (entity_id : string)
    (start_time : datetime) : option datetime :=
  if enabled c then
    match cache_data c !! lower entity_id with
    | Some e => latest e
    | None => Some start_time
    end
  else Some start_time.

(** No two stored items (at different positions) share a timestamp. *)
Definition distinct_timestamps (l : list pyval) : Prop := NoDup (timestamps l).

(** The new items the merge loop appends: mappings with a timestamp
    that is not among the timestamps stored before the call. *)
Definition fresh (seen : gset datetime) (item : pyval) : bool :=
  is_dict item &&
  match _get_timestamp item with
  | Some timestamp => bool_decide (timestamp ∉ seen)
  | None => false
  end.

(** The merge in the words of the specification (steps 2 to 4): the new
    items are appended behind the stored ones, the whole is re-sorted, and
    [latest] advances to the greatest appended timestamp. *)
Definition added (e : CacheEntry) (items : list pyval) : list pyval :=
  List.filter (fresh (existing_timestamps (data e))) items.

Definition merged (e : CacheEntry) (items : list pyval) : CacheEntry :=
  mkEntry (sort_by_timestamp (data e ++ added e items))
          (later (latest e) (max_timestamp (added e items))).

(** The cache with the entry under [entity_id]'s key replaced. *)
Definition with_entry (c : HistoryCache) (entity_id : string) (e : CacheEntry)
  : HistoryCache :=
  mkCache (<[lower entity_id := e]> (cache_data c)) (enabled c).

(** Every entry of the cache satisfies [P]. *)
Definition every_entry (P : CacheEntry → Prop) (c : HistoryCache) : Prop :=
  ∀ k e, cache_data c !! k = Some e → P e.

(** The entry under an entity's key, the empty entry when there is none. *)
Definition entry_of (c : HistoryCache) (entity_id : string) : CacheEntry :=
  default empty_entry (cache_data c !! lower entity_id).

(** Every key of the cache is a lower-cased entity id. *)
Definition keys_lower (c : HistoryCache) : Prop :=
  ∀ k e, cache_data c !! k = Some e → lower k = k.

(** [b] is present and at least [a] whenever [a] is present. *)
Definition no_earlier (a b : option datetime) : Prop :=
  ∀ l, a = Some l → ∃ l', b = Some l' ∧ l ≤ l'.

(** The item carries a timestamp at or after [start_time]. *)
Definition recent (start_time : datetime) (item : pyval) : bool :=
  match _get_timestamp item with
  | Some ts => start_time <=? ts
  | None => false
  end.

(** The item carries a timestamp within [start_time, end_time]. *)
Definition between (start_time end_time : datetime) (item : pyval) : bool :=
  recent start_time item && in_window end_time item.

(** ** Properties *)

(** *** The stable sort *)

Lemma insert_sorted_perm x l : insert_sorted x l ≡ₚ x :: l.
Proof.
  induction l as [|y l IH]; simpl; [done|].
  destruct (sort_key x <=? sort_key y); [done|].
  rewrite IH. apply perm_swap.
Qed.

Lemma sort_by_timestamp_perm l : sort_by_timestamp l ≡ₚ l.
Proof.
  induction l as [|x l IH]; simpl; [done|].
  by rewrite insert_sorted_perm, IH.
Qed.

Lemma sort_by_timestamp_length l : length (sort_by_timestamp l) = length l.
Proof. by rewrite sort_by_timestamp_perm. Qed.

Lemma insert_sorted_sorted x l : time_sorted l → time_sorted (insert_sorted x l).
Proof.
  unfold time_sorted. induction 1 as [|y l Hs IH Hall]; simpl.
  - repeat constructor.
  - destruct (N.leb_spec (sort_key x) (sort_key y)) as [Hle|Hlt].
    + constructor; [by constructor|].
      constructor; [done|].
      eapply Forall_impl; [exact Hall|]. simpl. intros z Hz. lia.
    + constructor; [done|].
      rewrite insert_sorted_perm. constructor; [lia|done].
Qed.

Lemma sort_by_timestamp_sorted l : time_sorted (sort_by_timestamp l).
Proof.
  induction l as [|x l IH]; simpl; [constructor|].
  by apply insert_sorted_sorted.
Qed.

(** Sorting a sorted sequence changes nothing. *)
Lemma sort_by_timestamp_id l : time_sorted l → sort_by_timestamp l = l.
Proof.
  unfold time_sorted. induction 1 as [|x l Hs IH Hall]; simpl; [done|].
  rewrite IH. destruct Hall as [|y l Hxy _]; simpl; [done|].
  destruct (N.leb_spec (sort_key x) (sort_key y)); [done|lia].
Qed.

(** Stability: among items selected by a predicate that fixes the sort
    key, the sort keeps the original order. *)
Lemma insert_sorted_filter (P : pyval → bool) k x l :
  (∀ y, P y = true → sort_key y = k) →
  List.filter P (insert_sorted x l) = List.filter P (x :: l).
Proof.
  intros HP. induction l as [|y l IH]; [done|].
  cbn [insert_sorted].
  destruct (N.leb_spec (sort_key x) (sort_key y)) as [Hle|Hlt]; [done|].
  cbn [List.filter] in *. rewrite IH.
  destruct (P x) eqn:Hx, (P y) eqn:Hy; try done.
  apply HP in Hx, Hy. lia.
Qed.

Lemma sort_by_timestamp_filter (P : pyval → bool) k l :
  (∀ y, P y = true → sort_key y = k) →
  List.filter P (sort_by_timestamp l) = List.filter P l.
Proof.
  intros HP. induction l as [|x l IH]; [done|].
  cbn [sort_by_timestamp].
  rewrite (insert_sorted_filter P k) by done.
  cbn [List.filter]. by rewrite IH.
Qed.

(** *** Optional timestamps *)

Lemma bump_later lt t : bump lt t = later lt (Some t).
Proof.
  destruct lt as [l|]; simpl; [|done].
  destruct (N.ltb_spec l t); f_equal; lia.
Qed.

Lemma later_None_r a : later a None = a.
Proof. by destruct a. Qed.

Lemma later_assoc a b c : later a (later b c) = later (later a b) c.
Proof. destruct a, b, c; simpl; f_equal; lia. Qed.

Lemma later_comm a b : later a b = later b a.
Proof. destruct a, b; simpl; f_equal; lia. Qed.

Lemma later_idemp a : later a a = a.
Proof. destruct a; simpl; f_equal; lia. Qed.

Lemma max_timestamp_cons x l :
  max_timestamp (x :: l) = later (_get_timestamp x) (max_timestamp l).
Proof. done. Qed.

Lemma max_timestamp_app l l' :
  max_timestamp (l ++ l') = later (max_timestamp l) (max_timestamp l').
Proof.
  induction l as [|x l IH]; simpl; [done|].
  by rewrite IH, later_assoc.
Qed.

Lemma max_timestamp_perm l l' : l ≡ₚ l' → max_timestamp l = max_timestamp l'.
Proof.
  induction 1 as [|x l l' _ IH|x y l|l l' l'' _ IH1 _ IH2]; simpl.
  - done.
  - by rewrite IH.
  - rewrite !later_assoc. f_equal. apply later_comm.
  - congruence.
Qed.

Lemma fold_bump l lt :
  fold_left bump (timestamps l) lt = later lt (max_timestamp l).
Proof.
  revert lt. induction l as [|x l IH]; intros lt; simpl.
  - by rewrite later_None_r.
  - unfold timestamps in *. simpl. destruct (_get_timestamp x) as [t|]; simpl.
    + rewrite IH, bump_later.
      destruct lt, (max_timestamp l); simpl; f_equal; lia.
    + by rewrite IH.
Qed.

(** [max_timestamp] is an upper bound that is attained. *)
Lemma max_timestamp_bound l item ts :
  item ∈ l → _get_timestamp item = Some ts →
  ∃ m, max_timestamp l = Some m ∧ ts ≤ m.
Proof.
  induction l as [|x l IH]; intros Hin Hts; [by apply elem_of_nil in Hin|].
  apply elem_of_cons in Hin as [->|Hin]; simpl.
  - rewrite Hts. destruct (max_timestamp l) as [m|]; simpl; eexists; split; eauto; lia.
  - destruct (IH Hin Hts) as (m & -> & Hm).
    destruct (_get_timestamp x) as [t|]; simpl; eexists; split; eauto; lia.
Qed.

Lemma max_timestamp_attained l m :
  max_timestamp l = Some m → ∃ item, item ∈ l ∧ _get_timestamp item = Some m.
Proof.
  revert m. induction l as [|x l IH]; intros m; simpl; [done|].
  destruct (_get_timestamp x) as [t|] eqn:Hx, (max_timestamp l) as [m'|] eqn:Hl;
    simpl; intros [= <-].
  - destruct (N.max_spec t m') as [[_ ->]|[_ ->]].
    + destruct (IH _ eq_refl) as (y & ? & ?). exists y. split; [by right|done].
    + exists x. split; [by left|done].
  - exists x. split; [by left|done].
  - destruct (IH _ eq_refl) as (y & ? & ?). exists y. split; [by right|done].
Qed.

Lemma max_timestamp_None l :
  max_timestamp l = None ↔ Forall malformed l.
Proof.
  unfold malformed. induction l as [|x l IH]; simpl.
  - split; [constructor|done].
  - rewrite Forall_cons, <- IH.
    destruct (_get_timestamp x), (max_timestamp l); simpl; intuition congruence.
Qed.

(** *** The merge loop *)

Lemma merge_loop_spec seen new_data existing_data latest_time :
  merge_loop seen new_data existing_data latest_time =
    (existing_data ++ List.filter (fresh seen) new_data,
     later latest_time (max_timestamp (List.filter (fresh seen) new_data))).
Proof.
  revert existing_data latest_time.
  induction new_data as [|item rest IH]; intros existing_data latest_time.
  - simpl. by rewrite app_nil_r, later_None_r.
  - cbn [merge_loop List.filter].
    assert (fresh seen item =
              is_dict item &&
              match _get_timestamp item with
              | Some t => bool_decide (t ∉ seen)
              | None => false
              end) as Hf by done.
    destruct (is_dict item); cbn [negb andb] in Hf |- *;
      [|rewrite Hf; apply IH].
    destruct (_get_timestamp item) as [t|] eqn:Ht; [|rewrite Hf; apply IH].
    destruct (bool_decide (t ∉ seen)); rewrite Hf; [|apply IH].
    rewrite IH, <- app_assoc, max_timestamp_cons, Ht.
    by rewrite bump_later, later_assoc.
Qed.

(** [update_cache] on an enabled cache and non-empty data is the merge of
    the normalized data into the entity's entry. *)
Lemma update_cache_merged c e new_data items end_time :
  enabled c = true → new_data = Some items → items ≠ [] →
  update_cache c e new_data end_time =
    with_entry c e (merged (entry_of c e) (normalize items)).
Proof.
  intros Hen -> Hne. unfold update_cache, with_entry, entry_of.
  rewrite Hen. destruct items as [|i0 items]; [done|]. cbn [negb orb truthy_data default].
  by rewrite merge_loop_spec.
Qed.

Lemma update_cache_disabled c e new_data end_time :
  enabled c = false → update_cache c e new_data end_time = c.
Proof. intros Hen. unfold update_cache. by rewrite Hen. Qed.

Lemma update_cache_empty c e new_data end_time :
  truthy_data new_data = false → update_cache c e new_data end_time = c.
Proof.
  intros Hnd. unfold update_cache. rewrite Hnd.
  by rewrite orb_true_r.
Qed.

Lemma truthy_data_true new_data :
  truthy_data new_data = true → ∃ items, new_data = Some items ∧ items ≠ [].
Proof. destruct new_data as [[|x l]|]; simpl; intros; try done. by eexists. Qed.

(** *** Timestamps already stored *)

Lemma timestamp_is_dict item ts : _get_timestamp item = Some ts → is_dict item = true.
Proof. by destruct item. Qed.

Lemma elem_of_timestamps l ts :
  ts ∈ timestamps l ↔ ∃ item, item ∈ l ∧ _get_timestamp item = Some ts.
Proof. unfold timestamps. by rewrite list_elem_of_omap. Qed.

Lemma elem_of_existing_timestamps l ts :
  ts ∈ existing_timestamps l ↔ ∃ item, item ∈ l ∧ _get_timestamp item = Some ts.
Proof.
  unfold existing_timestamps. rewrite elem_of_list_to_set, list_elem_of_omap.
  split; intros (item & Hin & Hts); exists item; split; try done.
  - apply list_elem_of_In in Hin. apply filter_In in Hin as [Hin _].
    by apply list_elem_of_In.
  - apply list_elem_of_In, filter_In. split; [by apply list_elem_of_In|].
    by eapply timestamp_is_dict.
Qed.

Lemma elem_of_added e items item :
  item ∈ added e items ↔
  item ∈ items ∧ ∃ ts, _get_timestamp item = Some ts ∧
                       ∀ old, old ∈ data e → _get_timestamp old ≠ Some ts.
Proof.
  unfold added. rewrite list_elem_of_In, filter_In, <- list_elem_of_In.
  unfold fresh. split.
  - intros [Hin Hf]. split; [done|].
    destruct (is_dict item); [|done].
    destruct (_get_timestamp item) as [ts|]; [|done].
    exists ts. split; [done|]. intros old Hold Hts.
    apply bool_decide_eq_true in Hf. apply Hf.
    apply elem_of_existing_timestamps. eauto.
  - intros [Hin (ts & Hts & Hnew)]. split; [done|].
    rewrite (timestamp_is_dict _ _ Hts), Hts. simpl.
    apply bool_decide_eq_true. rewrite elem_of_existing_timestamps.
    intros (old & Hold & Hts'). by eapply Hnew.
Qed.

Lemma elem_of_merged e items item :
  item ∈ data (merged e items) ↔ item ∈ data e ∨ item ∈ added e items.
Proof. unfold merged. simpl. by rewrite sort_by_timestamp_perm, elem_of_app. Qed.

(** *** The merge keeps the invariants *)

Lemma has_timestamp_true item :
  has_timestamp item = true ↔ ∃ ts, _get_timestamp item = Some ts.
Proof.
  unfold has_timestamp. destruct (_get_timestamp item); split; eauto; try done.
  by intros [? ?].
Qed.

Lemma merged_well_formed e items :
  stored_well_formed e → stored_well_formed (merged e items).
Proof.
  unfold stored_well_formed. rewrite !Forall_forall. intros He item Hin.
  apply elem_of_merged in Hin as [Hin|Hin]; [by apply He|].
  apply elem_of_added in Hin as (_ & ts & Hts & _).
  apply has_timestamp_true. eauto.
Qed.

Lemma merged_sorted e items : time_sorted (data (merged e items)).
Proof. apply sort_by_timestamp_sorted. Qed.

Lemma merged_bounds e items : latest_bounds e → latest_bounds (merged e items).
Proof.
  intros He item ts Hin Hts.
  apply elem_of_merged in Hin as [Hin|Hin].
  - destruct (He _ _ Hin Hts) as (l & Hl & Hle). unfold merged. simpl.
    rewrite Hl. destruct (max_timestamp (added e items)); simpl;
      eexists; split; eauto; lia.
  - destruct (max_timestamp_bound _ _ _ Hin Hts) as (m & Hm & Hle).
    unfold merged. simpl. rewrite Hm.
    destruct (latest e); simpl; eexists; split; eauto; lia.
Qed.

Lemma merged_is_max e items : latest_is_max e → latest_is_max (merged e items).
Proof.
  unfold latest_is_max, merged. simpl. intros ->.
  by rewrite (max_timestamp_perm _ _ (sort_by_timestamp_perm _)), max_timestamp_app.
Qed.

Lemma latest_is_max_bounds e : latest_is_max e → latest_bounds e.
Proof.
  intros He item ts Hin Hts. rewrite He. by eapply max_timestamp_bound.
Qed.

Lemma entry_tight_ok e : entry_tight e → entry_ok e.
Proof. intros (? & ? & ?). repeat split; try done. by apply latest_is_max_bounds. Qed.

Lemma merged_ok e items : entry_ok e → entry_ok (merged e items).
Proof.
  intros (? & ? & ?). repeat split;
    auto using merged_well_formed, merged_sorted, merged_bounds.
Qed.

Lemma merged_tight e items : entry_tight e → entry_tight (merged e items).
Proof.
  intros (? & ? & ?). repeat split;
    auto using merged_well_formed, merged_sorted, merged_is_max.
Qed.

Lemma empty_entry_tight : entry_tight empty_entry.
Proof. repeat split; constructor. Qed.

(** *** The prune *)

Lemma prune_split start_time l :
  ∃ gone, l = gone ++ prune start_time l ∧ Forall (older start_time) gone.
Proof.
  induction l as [|x l (gone & Hl & Hgone)]; [by exists []|].
  cbn [prune]. destruct (_get_timestamp x) as [ts|] eqn:Hts; [|by exists []].
  destruct (N.ltb_spec ts start_time) as [Hlt|Hge]; [|by exists []].
  exists (x :: gone). split; [simpl; congruence|].
  constructor; [by exists ts|done].
Qed.

Lemma prune_head start_time l x rest :
  prune start_time l = x :: rest → ¬ older start_time x.
Proof.
  induction l as [|y l IH]; [done|]. cbn [prune].
  destruct (_get_timestamp y) as [ts|] eqn:Hts.
  - destruct (N.ltb_spec ts start_time) as [Hlt|Hge]; [done|].
    intros [= -> ->] (ts' & Hts' & Hlt). simplify_eq. lia.
  - intros [= -> ->] (ts' & Hts' & _). congruence.
Qed.

Lemma prune_sorted start_time l : time_sorted l → time_sorted (prune start_time l).
Proof.
  unfold time_sorted. induction 1 as [|x l Hs IH Hall]; [constructor|].
  cbn [prune]. destruct (_get_timestamp x); [|by constructor].
  destruct (_ <? _); [done|by constructor].
Qed.

Lemma elem_of_prune start_time l item : item ∈ prune start_time l → item ∈ l.
Proof.
  destruct (prune_split start_time l) as (gone & Hl & _).
  intros Hin. rewrite Hl. apply elem_of_app. by right.
Qed.

Lemma pruned_ok start_time e : entry_ok e → entry_ok (pruned start_time e).
Proof.
  intros (Hwf & Hs & Hb). repeat split.
  - unfold stored_well_formed in *. rewrite Forall_forall in *.
    intros item Hin. apply Hwf. eapply elem_of_prune. exact Hin.
  - by apply prune_sorted.
  - intros item ts Hin Hts. apply (Hb item ts); [|done].
    eapply elem_of_prune. exact Hin.
Qed.

(** *** Cache-wide invariants *)

Lemma with_entry_every P c e ent :
  every_entry P c → P ent → every_entry P (with_entry c e ent).
Proof.
  intros Hc Hent k ent' Hk. unfold with_entry in Hk. simpl in Hk.
  destruct (decide (lower e = k)) as [<-|Hne].
  - rewrite lookup_insert_eq in Hk. by simplify_eq.
  - rewrite lookup_insert_ne in Hk by done. by eapply Hc.
Qed.

Lemma entry_of_every P c e :
  every_entry P c → P empty_entry → P (entry_of c e).
Proof.
  intros Hc Hempty. unfold entry_of.
  destruct (cache_data c !! lower e) eqn:Hk; simpl; [by eapply Hc|done].
Qed.

Lemma update_cache_every P c e new_data end_time :
  P empty_entry → (∀ ent items, P ent → P (merged ent items)) →
  every_entry P c → every_entry P (update_cache c e new_data end_time).
Proof.
  intros Hempty Hmerged Hc.
  destruct (enabled c) eqn:Hen; [|by rewrite update_cache_disabled].
  destruct (truthy_data new_data) eqn:Hnd; [|by rewrite update_cache_empty].
  apply truthy_data_true in Hnd as (items & -> & Hne).
  rewrite (update_cache_merged _ _ _ items) by done.
  apply with_entry_every; [done|]. apply Hmerged. by apply entry_of_every.
Qed.

Lemma update_cache_enabled c e new_data end_time :
  enabled (update_cache c e new_data end_time) = enabled c.
Proof.
  unfold update_cache.
  destruct (negb (enabled c) || negb (truthy_data new_data)); [done|].
  by destruct (merge_loop _ _ _ _).
Qed.

(** [update_cache] always leaves the cache as the merge of the normalized
    data into the entity's entry when it does anything at all. *)
Lemma update_cache_cases c e new_data end_time :
  update_cache c e new_data end_time = c ∧
    (enabled c = false ∨ truthy_data new_data = false)
  ∨ ∃ items, new_data = Some items ∧ items ≠ [] ∧ enabled c = true ∧
      update_cache c e new_data end_time =
        with_entry c e (merged (entry_of c e) (normalize items)).
Proof.
  destruct (enabled c) eqn:Hen; [|left; split; [by apply update_cache_disabled|by left]].
  destruct (truthy_data new_data) eqn:Hnd;
    [|left; split; [by apply update_cache_empty|by right]].
  apply truthy_data_true in Hnd as (items & -> & Hne).
  right. exists items. repeat split; try done. by apply update_cache_merged.
Qed.

Lemma entry_of_with_entry c e ent : entry_of (with_entry c e ent) e = ent.
Proof. unfold entry_of, with_entry. simpl. by rewrite lookup_insert_eq. Qed.

Lemma entry_of_lookup c e ent :
  cache_data c !! lower e = Some ent → entry_of c e = ent.
Proof. unfold entry_of. by intros ->. Qed.

(** An entry, once there, stays: [update_cache] never removes a key. *)
Lemma update_cache_lookup c e new_data end_time ent :
  cache_data c !! lower e = Some ent →
  cache_data (update_cache c e new_data end_time) !! lower e
    = Some (entry_of (update_cache c e new_data end_time) e).
Proof.
  intros Hk.
  destruct (update_cache_cases c e new_data end_time)
    as [[-> _]|(items & _ & _ & _ & ->)].
  - by rewrite (entry_of_lookup _ _ _ Hk).
  - rewrite entry_of_with_entry. unfold with_entry. simpl.
    by rewrite lookup_insert_eq.
Qed.

(** *** [get_or_fetch], path by path *)

Lemma fetch_and_update_eq c e end_time f m a b :
  fetch_and_update c e end_time f m a b =
    (f a b m,
     match f a b m with
     | FetchReturn v => update_cache c e v end_time
     | FetchRaise _ => c
     end).
Proof.
  unfold fetch_and_update. destruct (f a b m) as [v|x]; [|done].
  destruct (truthy_data v) eqn:Hv; [done|]. by rewrite update_cache_empty.
Qed.

Lemma get_or_fetch_off c e s t f m :
  enabled c = false →
  get_or_fetch c e s t f m =
    mkCompleted (outcome_of (f (Some s) t m)) c [mkCall (Some s) t m].
Proof.
  intros Hen. unfold get_or_fetch. rewrite Hen. simpl.
  by destruct (f (Some s) t m).
Qed.

Lemma get_or_fetch_no_entry c e s t f m :
  enabled c = true → cache_data c !! lower e = None →
  get_or_fetch c e s t f m =
    mkCompleted (outcome_of (f (Some s) t m))
      match f (Some s) t m with
      | FetchReturn v => update_cache c e v t
      | FetchRaise _ => c
      end
      [mkCall (Some s) t m].
Proof.
  intros Hen Hk. unfold get_or_fetch. rewrite Hen, Hk. simpl.
  rewrite fetch_and_update_eq. by destruct (f (Some s) t m).
Qed.

Lemma get_or_fetch_entry_raise c e s t f m ent x :
  enabled c = true → cache_data c !! lower e = Some ent →
  f (latest ent) t m = FetchRaise x →
  get_or_fetch c e s t f m = mkCompleted (Raised x) c [mkCall (latest ent) t m].
Proof.
  intros Hen Hk Hf. unfold get_or_fetch. rewrite Hen, Hk. simpl.
  by rewrite fetch_and_update_eq, Hf.
Qed.

Lemma get_or_fetch_entry_return c e s t f m ent v :
  enabled c = true → cache_data c !! lower e = Some ent →
  f (latest ent) t m = FetchReturn v →
  get_or_fetch c e s t f m =
    let c' := update_cache c e v t in
    mkCompleted
      (Returned (Some (window t (prune s (data (entry_of c' e))))))
      (with_entry c' e (pruned s (entry_of c' e)))
      [mkCall (latest ent) t m].
Proof.
  intros Hen Hk Hf. unfold get_or_fetch. rewrite Hen, Hk. simpl.
  rewrite fetch_and_update_eq, Hf.
  by rewrite (update_cache_lookup _ _ v t _ Hk).
Qed.

(** [fetch_func] is invoked exactly once, whatever the path. *)
Lemma get_or_fetch_fetches c e s t f m :
  fetches (get_or_fetch c e s t f m) = [mkCall (requested_start c e s) t m].
Proof.
  unfold requested_start.
  destruct (enabled c) eqn:Hen; [|by rewrite get_or_fetch_off].
  destruct (cache_data c !! lower e) as [ent|] eqn:Hk;
    [|by rewrite get_or_fetch_no_entry].
  destruct (f (latest ent) t m) as [v|x] eqn:Hf.
  - by rewrite (get_or_fetch_entry_return _ _ _ _ _ _ ent v).
  - by rewrite (get_or_fetch_entry_raise _ _ _ _ _ _ ent x).
Qed.

Lemma get_or_fetch_every P c e s t f m :
  P empty_entry → (∀ ent items, P ent → P (merged ent items)) →
  (∀ ent start_time, P ent → P (pruned start_time ent)) →
  every_entry P c → every_entry P (final (get_or_fetch c e s t f m)).
Proof.
  intros Hempty Hmerged Hpruned Hc.
  destruct (enabled c) eqn:Hen; [|by rewrite get_or_fetch_off].
  destruct (cache_data c !! lower e) as [ent|] eqn:Hk.
  - destruct (f (latest ent) t m) as [v|x] eqn:Hf.
    + rewrite (get_or_fetch_entry_return _ _ _ _ _ _ ent v) by done. simpl.
      assert (every_entry P (update_cache c e v t)) as Hc'
        by by apply update_cache_every.
      apply with_entry_every; [done|]. apply Hpruned.
      by apply entry_of_every.
    + by rewrite (get_or_fetch_entry_raise _ _ _ _ _ _ ent x).
  - rewrite get_or_fetch_no_entry by done. simpl.
    destruct (f (Some s) t m); [by apply update_cache_every|done].
Qed.

(** *** Facts about the appended items *)

Lemma filter_none (P : pyval → bool) l :
  (∀ x, x ∈ l → P x = false) → List.filter P l = [].
Proof.
  induction l as [|x l IH]; intros Hl; [done|]. simpl.
  rewrite (Hl x) by by left. apply IH. intros y Hy. apply Hl. by right.
Qed.

Lemma fresh_no_timestamps item : fresh (existing_timestamps []) item = has_timestamp item.
Proof.
  unfold fresh, has_timestamp. destruct (is_dict item) eqn:Hd; simpl.
  - destruct (_get_timestamp item) as [ts|]; [|done].
    apply bool_decide_eq_true. unfold existing_timestamps. simpl. set_solver.
  - by destruct item.
Qed.

Lemma added_empty_entry items : added empty_entry items = List.filter has_timestamp items.
Proof. unfold added. simpl. apply filter_ext. apply fresh_no_timestamps. Qed.

Lemma max_timestamp_filter l :
  max_timestamp (List.filter has_timestamp l) = max_timestamp l.
Proof.
  induction l as [|x l IH]; [done|]. simpl. unfold has_timestamp at 1.
  destruct (_get_timestamp x) as [ts|] eqn:Hx; simpl; by rewrite ?Hx, IH.
Qed.

(** Nothing is appended when every timestamp of the batch is stored. *)
Lemma added_nil e items :
  (∀ item ts, item ∈ items → _get_timestamp item = Some ts →
     ∃ old, old ∈ data e ∧ _get_timestamp old = Some ts) →
  added e items = [].
Proof.
  intros Hall. destruct (added e items) as [|x l] eqn:Hx; [done|].
  assert (x ∈ added e items) as Hin by (rewrite Hx; by left).
  apply elem_of_added in Hin as (Hin & ts & Hts & Hnew).
  destruct (Hall _ _ Hin Hts) as (old & Hold & Hts'). by destruct (Hnew old Hold).
Qed.

Lemma merged_nothing_added e items :
  added e items = [] → time_sorted (data e) → merged e items = e.
Proof.
  intros Hadd Hs. unfold merged. rewrite Hadd, app_nil_r. simpl.
  rewrite later_None_r, sort_by_timestamp_id by done. by destruct e.
Qed.

Lemma merged_twice e items : merged (merged e items) items = merged e items.
Proof.
  apply merged_nothing_added; [|apply merged_sorted].
  apply added_nil. intros item ts Hin Hts.
  destruct (decide (ts ∈ timestamps (data e))) as [Hstored|Hnone];
    rewrite elem_of_timestamps in *.
  - destruct Hstored as (old & Hold & Hts'). exists old. split; [|done].
    apply elem_of_merged. by left.
  - exists item. split; [|done]. apply elem_of_merged. right.
    apply elem_of_added. split; [done|]. exists ts. split; [done|].
    intros old Hold Hts'. apply Hnone. eauto.
Qed.

Lemma with_entry_twice c e ent ent' :
  with_entry (with_entry c e ent) e ent' = with_entry c e ent'.
Proof. unfold with_entry. simpl. by rewrite insert_insert_eq. Qed.

Lemma at_time_key ts item : at_time ts item = true → sort_key item = ts.
Proof.
  unfold at_time, sort_key. destruct (_get_timestamp item) as [ts'|]; [|done].
  simpl. by intros ?%N.eqb_eq.
Qed.

Lemma at_time_true ts item : at_time ts item = true ↔ _get_timestamp item = Some ts.
Proof.
  unfold at_time. destruct (_get_timestamp item) as [ts'|]; [|done].
  rewrite N.eqb_eq. split; congruence.
Qed.

Lemma in_window_true end_time item :
  in_window end_time item = true ↔
  ∃ ts, _get_timestamp item = Some ts ∧ ts ≤ end_time.
Proof.
  unfold in_window. destruct (_get_timestamp item) as [ts|].
  - rewrite N.leb_le. split; [eauto|]. by intros (? & [= <-] & ?).
  - split; [done|]. by intros (? & ? & ?).
Qed.

(** Timestamps stay pairwise distinct when the batch itself carries no
    timestamp twice. *)
Lemma timestamps_filter_sublist (P : pyval → bool) l :
  timestamps (List.filter P l) `sublist_of` timestamps l.
Proof.
  unfold timestamps. induction l as [|x l IH]; simpl; [done|].
  destruct (P x); simpl; destruct (_get_timestamp x); simpl;
    try done; by constructor.
Qed.

Lemma merged_distinct e items :
  distinct_timestamps (data e) → distinct_timestamps items →
  distinct_timestamps (data (merged e items)).
Proof.
  unfold distinct_timestamps, merged, timestamps. simpl. intros He Hitems.
  rewrite sort_by_timestamp_perm, omap_app. apply NoDup_app. repeat split.
  - done.
  - intros ts (old & Hold & Hts)%list_elem_of_omap
               (item & Hin & Hts')%list_elem_of_omap.
    apply elem_of_added in Hin as (_ & ts' & Hts'' & Hnew).
    simplify_eq. by destruct (Hnew old Hold).
  - eapply sublist_NoDup; [exact Hitems|apply timestamps_filter_sublist].
Qed.

(** *** The claims *)

(** C1 (amended). After every mutating operation -- the merge of
    [update_cache], or the merge followed by the in-place prune of
    [get_or_fetch] -- every entry holds only records, in ascending order of
    timestamp, and none of them is later than [latest]. The merge moreover
    keeps [latest] equal to the maximum stored timestamp (absent when
    nothing is stored) on every entry, taken by itself, where it was so
    before the call, and on the entry it creates. The prune does not touch
    [latest]: after [get_or_fetch] the entry has the [latest] the merge
    gave it (the one it had, when the fetch raised). *)
Theorem mutation_keeps_entry_invariant c :
  every_entry entry_ok c →
  (∀ e new_data end_time,
     every_entry entry_ok (update_cache c e new_data end_time)) ∧
  (∀ e start_time end_time fetch_func minimal,
     every_entry entry_ok
       (final (get_or_fetch c e start_time end_time fetch_func minimal))) ∧
  (∀ e new_data end_time k ent',
     cache_data (update_cache c e new_data end_time) !! k = Some ent' →
     (∀ ent, cache_data c !! k = Some ent → entry_tight ent) →
     entry_tight ent') ∧
  (∀ e start_time end_time fetch_func minimal,
     latest (entry_of
               (final (get_or_fetch c e start_time end_time fetch_func minimal)) e)
     = latest (entry_of
                 match fetch_func (requested_start c e start_time) end_time minimal with
                 | FetchReturn v => update_cache c e v end_time
                 | FetchRaise _ => c
                 end e)).
Proof.
  intros Hc. split; [|split; [|split]].
  - intros e new_data end_time.
    apply update_cache_every;
      auto using merged_ok, entry_tight_ok, empty_entry_tight.
  - intros e start_time end_time fetch_func minimal.
    apply get_or_fetch_every;
      auto using merged_ok, pruned_ok, entry_tight_ok, empty_entry_tight.
  - intros e new_data end_time k ent' Hk' Hbefore.
    destruct (update_cache_cases c e new_data end_time)
      as [[Heq _]|(items & _ & _ & _ & Heq)]; rewrite Heq in Hk'.
    + by apply Hbefore.
    + unfold with_entry in Hk'. simpl in Hk'.
      destruct (decide (lower e = k)) as [<-|Hne].
      * rewrite lookup_insert_eq in Hk'. injection Hk' as <-.
        apply merged_tight. unfold entry_of.
        destruct (cache_data c !! lower e) as [ent|] eqn:Hk; simpl;
          [by apply Hbefore|apply empty_entry_tight].
      * rewrite lookup_insert_ne in Hk' by done. by apply Hbefore.
  - intros e s t f m. unfold requested_start.
    destruct (enabled c) eqn:Hen.
    + destruct (cache_data c !! lower e) as [ent|] eqn:Hk.
      * destruct (f (latest ent) t m) as [v|x] eqn:Hf.
        -- rewrite (get_or_fetch_entry_return _ _ _ _ _ _ ent v) by done.
           cbn [final]. by rewrite entry_of_with_entry.
        -- by rewrite (get_or_fetch_entry_raise _ _ _ _ _ _ ent x).
      * rewrite get_or_fetch_no_entry by done. cbn [final].
        by destruct (f (Some s) t m).
    + rewrite get_or_fetch_off by done. cbn [final].
      destruct (f (Some s) t m); [|done]. by rewrite update_cache_disabled.
Qed.

(** C4. Calling [update_cache] a second time with the same entity, data
    and time changes nothing: the cache is the same, so the length of the
    entry's stored sequence is the same. *)
Theorem update_cache_idempotent c e new_data end_time :
  let c1 := update_cache c e new_data end_time in
  let c2 := update_cache c1 e new_data end_time in
  c2 = c1 ∧ length (data (entry_of c2 e)) = length (data (entry_of c1 e)).
Proof.
  intros c1 c2.
  assert (c2 = c1) as Heq; [|by rewrite Heq].
  subst c1 c2.
  destruct (update_cache_cases c e new_data end_time)
    as [[Hsame Hwhy]|(items & -> & Hne & Hen & Hc1)].
  - by rewrite !Hsame.
  - rewrite Hc1. rewrite (update_cache_merged _ _ _ items) by done.
    by rewrite entry_of_with_entry, merged_twice, with_entry_twice.
Qed.

(** C5. When the fetch function raises on the one window [get_or_fetch]
    asks it for, the call ends with that very exception, [fetch_func] has
    been invoked once only, and the cache is as it was before the call. *)
Theorem get_or_fetch_fetch_raises c e start_time end_time fetch_func minimal x :
  fetch_func (requested_start c e start_time) end_time minimal = FetchRaise x →
  get_or_fetch c e start_time end_time fetch_func minimal =
    mkCompleted (Raised x) c [mkCall (requested_start c e start_time) end_time minimal].
Proof.
  unfold requested_start. intros Hf.
  destruct (enabled c) eqn:Hen; [|by rewrite get_or_fetch_off, Hf].
  destruct (cache_data c !! lower e) as [ent|] eqn:Hk.
  - by apply get_or_fetch_entry_raise.
  - by rewrite get_or_fetch_no_entry, Hf.
Qed.

(** C6. On a disabled cache [get_or_fetch] invokes
    [fetch_func(start_time, end_time, minimal)] exactly once, hands back
    what it returned (or raised) as it is, and leaves the cache unchanged. *)
Theorem get_or_fetch_disabled c e start_time end_time fetch_func minimal :
  enabled c = false →
  get_or_fetch c e start_time end_time fetch_func minimal =
    mkCompleted (outcome_of (fetch_func (Some start_time) end_time minimal)) c
      [mkCall (Some start_time) end_time minimal] ∧
  ∀ new_data, update_cache c e new_data end_time = c.
Proof.
  intros Hen. split; [by apply get_or_fetch_off|].
  intros new_data. by apply update_cache_disabled.
Qed.

Lemma merged_empty_entry items :
  merged empty_entry items =
    mkEntry (sort_by_timestamp (List.filter has_timestamp items)) (max_timestamp items).
Proof.
  unfold merged. rewrite added_empty_entry. simpl.
  by rewrite max_timestamp_filter.
Qed.

Lemma entry_of_absent c e : cache_data c !! lower e = None → entry_of c e = empty_entry.
Proof. unfold entry_of. by intros ->. Qed.

(** C3. With an entry whose [latest] is [t1] and [t0 < t1 < t2],
    [get_or_fetch(entity, t0, t2)] asks [fetch_func] for the window
    [t1, t2] and nothing else, merges what it returns into the entry,
    removes from storage the leading items older than [t0], and returns
    the items left in storage whose timestamp is at most [t2]. *)
Theorem get_or_fetch_delta_window c e ent t0 t1 t2 fetch_func minimal v :
  enabled c = true →
  cache_data c !! lower e = Some ent →
  latest ent = Some t1 →
  t0 < t1 < t2 →
  fetch_func (Some t1) t2 minimal = FetchReturn v →
  let r := get_or_fetch c e t0 t2 fetch_func minimal in
  let after_merge := entry_of (update_cache c e v t2) e in
  let stored := data (entry_of (final r) e) in
  fetches r = [mkCall (Some t1) t2 minimal] ∧
  after_merge =
    (if truthy_data v then merged ent (normalize (default [] v)) else ent) ∧
  final r =
    with_entry (update_cache c e v t2) e (mkEntry stored (latest after_merge)) ∧
  (∃ gone, data after_merge = gone ++ stored ∧ Forall (older t0) gone ∧
           match stored with [] => True | first :: _ => ¬ older t0 first end) ∧
  ∃ returned,
    result r = Returned (Some returned) ∧
    returned = List.filter (in_window t2) stored ∧
    ∀ item, item ∈ returned ↔
            item ∈ stored ∧ ∃ ts, _get_timestamp item = Some ts ∧ ts ≤ t2.
Proof.
  intros Hen Hk Hl _ Hf r after_merge stored. subst r stored.
  rewrite <- Hl in Hf |- *.
  rewrite (get_or_fetch_entry_return _ _ _ _ _ _ ent v) by done.
  cbn [fetches final result]. rewrite entry_of_with_entry. fold after_merge.
  cbn [pruned data]. split; [done|]. split; [|split; [done|split]].
  - subst after_merge. destruct (truthy_data v) eqn:Hv.
    + apply truthy_data_true in Hv as (items & -> & Hne).
      rewrite (update_cache_merged _ _ _ items) by done.
      by rewrite entry_of_with_entry, (entry_of_lookup _ _ _ Hk).
    + by rewrite update_cache_empty, (entry_of_lookup _ _ _ Hk).
  - destruct (prune_split t0 (data after_merge)) as (gone & Hsplit & Hgone).
    exists gone. repeat split; try done.
    destruct (prune t0 (data after_merge)) as [|first rest] eqn:Hp; [done|].
    by eapply prune_head.
  - eexists. split; [done|]. split; [done|]. intros item.
    unfold window. by rewrite list_elem_of_In, filter_In, <- list_elem_of_In, in_window_true.
Qed.

(** C7. With no entry under the entity's key, [get_or_fetch] asks
    [fetch_func] for the whole window [start_time, end_time], merges the
    non-empty result into a new entry through [update_cache], and returns
    the fetched data itself. *)
Theorem get_or_fetch_first_fetch c e start_time end_time fetch_func minimal items :
  enabled c = true →
  cache_data c !! lower e = None →
  fetch_func (Some start_time) end_time minimal = FetchReturn (Some items) →
  items ≠ [] →
  let r := get_or_fetch c e start_time end_time fetch_func minimal in
  fetches r = [mkCall (Some start_time) end_time minimal] ∧
  result r = Returned (Some items) ∧
  final r = update_cache c e (Some items) end_time ∧
  cache_data (final r) !! lower e =
    Some (mkEntry (sort_by_timestamp (List.filter has_timestamp (normalize items)))
                  (max_timestamp (normalize items))).
Proof.
  intros Hen Hk Hf Hne r. subst r.
  rewrite get_or_fetch_no_entry, Hf by done. cbn [fetches final result outcome_of].
  repeat split.
  rewrite (update_cache_merged _ _ _ items) by done.
  rewrite (entry_of_absent _ _ Hk), merged_empty_entry.
  unfold with_entry. simpl. by rewrite lookup_insert_eq.
Qed.

(** C8. When the first element of [new_data] is itself a sequence,
    [update_cache] merges the items of that first element and ignores the
    rest; it unwraps one level only, so a sequence found inside is dropped
    as a malformed item. On [[r]] for a record [r] and an entity without
    entry, the new entry stores exactly [r]. *)
Theorem update_cache_unwraps_one_level c e inner rest deeper r ts end_time :
  enabled c = true →
  _get_timestamp r = Some ts →
  update_cache c e (Some (PList inner :: rest)) end_time =
    with_entry c e (merged (entry_of c e) inner) ∧
  update_cache c e (Some [PList [PList deeper]]) end_time =
    with_entry c e (mkEntry (sort_by_timestamp (data (entry_of c e)))
                            (latest (entry_of c e))) ∧
  update_cache c e (Some [PList [r]]) end_time =
    update_cache c e (Some [r]) end_time ∧
  (cache_data c !! lower e = None →
   update_cache c e (Some [PList [r]]) end_time =
     with_entry c e (mkEntry [r] (Some ts))).
Proof.
  intros Hen Hts. split; [|split; [|split]].
  - by rewrite (update_cache_merged _ _ _ (PList inner :: rest)).
  - rewrite (update_cache_merged _ _ _ [PList [PList deeper]]) by done.
    unfold merged, added. simpl. by rewrite app_nil_r, later_None_r.
  - rewrite (update_cache_merged _ _ _ [PList [r]]) by done.
    rewrite (update_cache_merged _ _ _ [r]) by done.
    apply timestamp_is_dict in Hts. by destruct r.
  - intros Hk. rewrite (update_cache_merged _ _ _ [PList [r]]) by done.
    rewrite (entry_of_absent _ _ Hk), merged_empty_entry. simpl.
    unfold has_timestamp. by rewrite Hts.
Qed.

(** C9. An item stored under some timestamp stays as it is when
    [update_cache] is given items with the same timestamp: the stored items
    at that timestamp are the same sequence before and after, whatever the
    payload of the new ones, which are not appended. *)
Theorem update_cache_keeps_stored_item c e ent stored ts items end_time :
  enabled c = true →
  cache_data c !! lower e = Some ent →
  stored ∈ data ent →
  _get_timestamp stored = Some ts →
  let ent' := entry_of (update_cache c e (Some items) end_time) e in
  List.filter (at_time ts) (data ent') = List.filter (at_time ts) (data ent) ∧
  stored ∈ data ent' ∧
  (length (data ent') = length (data ent) + length (added ent (normalize items)))%nat ∧
  ∀ new, new ∈ normalize items → _get_timestamp new = Some ts →
         new ∉ added ent (normalize items).
Proof.
  intros Hen Hk Hin Hts ent'.
  assert (∀ new, new ∈ added ent (normalize items) → _get_timestamp new ≠ Some ts)
    as Hnew.
  { intros new (_ & ts' & Hts' & Hfresh)%elem_of_added Heq. simplify_eq.
    by destruct (Hfresh stored Hin). }
  assert (∀ new, new ∈ normalize items → _get_timestamp new = Some ts →
                 new ∉ added ent (normalize items)) as Hdrop.
  { intros new _ Heq Hadd. by apply (Hnew new). }
  subst ent'. destruct items as [|i0 items].
  - rewrite update_cache_empty, (entry_of_lookup _ _ _ Hk) by done.
    by repeat split.
  - rewrite (update_cache_merged _ _ _ (i0 :: items)) by done.
    rewrite entry_of_with_entry, (entry_of_lookup _ _ _ Hk).
    set (new_items := normalize (i0 :: items)) in *.
    split; [|split; [|split]].
    + unfold merged. cbn [data].
      rewrite (sort_by_timestamp_filter _ ts) by apply at_time_key.
      rewrite List.filter_app, (filter_none _ (added ent new_items)), app_nil_r; [done|].
      intros new Hadd. apply not_true_is_false. rewrite at_time_true.
      by apply Hnew.
    + apply elem_of_merged. by left.
    + unfold merged. cbn [data].
      by rewrite sort_by_timestamp_length, length_app.
    + done.
Qed.

(** C10 (amended). With no entry under the entity's key, [update_cache]
    on non-empty data whose items, after the one-level unwrap, are all
    malformed still creates the entry, with nothing stored and no
    [latest]. *)
Theorem update_cache_only_malformed c e items end_time :
  enabled c = true →
  cache_data c !! lower e = None →
  items ≠ [] →
  Forall malformed (normalize items) →
  cache_data (update_cache c e (Some items) end_time) !! lower e =
    Some (mkEntry [] None).
Proof.
  intros Hen Hk Hne Hbad.
  rewrite (update_cache_merged _ _ _ items) by done.
  rewrite (entry_of_absent _ _ Hk), merged_empty_entry.
  unfold with_entry. simpl. rewrite lookup_insert_eq.
  rewrite (filter_none has_timestamp).
  - by apply max_timestamp_None in Hbad as ->.
  - intros x Hx. rewrite Forall_forall in Hbad. unfold has_timestamp.
    by rewrite (Hbad x Hx).
Qed.

(** *** Further properties of the cache *)

(** **** Entity keys *)

Lemma lower_ascii_idemp a : lower_ascii (lower_ascii a) = lower_ascii a.
Proof. by destruct a as [[] [] [] [] [] [] [] []]. Qed.

Lemma lower_idemp s : lower (lower s) = lower s.
Proof.
  induction s as [|a s IH]; [done|]. simpl. by rewrite lower_ascii_idemp, IH.
Qed.

Lemma update_cache_same_key c e e' new_data end_time :
  lower e = lower e' →
  update_cache c e new_data end_time = update_cache c e' new_data end_time.
Proof. intros Hk. unfold update_cache. by rewrite Hk. Qed.

(** **** The cache after [get_or_fetch] *)

(** The cache after the call, path by path: untouched, the merge alone
    (no entry before), or the merge followed by the prune. *)
Lemma get_or_fetch_final c e s t f m :
  final (get_or_fetch c e s t f m) = c
  ∨ ∃ v, enabled c = true ∧ f (requested_start c e s) t m = FetchReturn v ∧
      (cache_data c !! lower e = None ∧
         final (get_or_fetch c e s t f m) = update_cache c e v t
       ∨ is_Some (cache_data c !! lower e) ∧
         final (get_or_fetch c e s t f m) =
           with_entry (update_cache c e v t) e
             (pruned s (entry_of (update_cache c e v t) e))).
Proof.
  unfold requested_start.
  destruct (enabled c) eqn:Hen; [|left; by rewrite get_or_fetch_off].
  destruct (cache_data c !! lower e) as [ent|] eqn:Hk.
  - destruct (f (latest ent) t m) as [v|x] eqn:Hf.
    + right. exists v. repeat split. right. split; [by eexists|].
      by rewrite (get_or_fetch_entry_return _ _ _ _ _ _ ent v).
    + left. by rewrite (get_or_fetch_entry_raise _ _ _ _ _ _ ent x).
  - rewrite get_or_fetch_no_entry by done. simpl.
    destruct (f (Some s) t m) as [v|x] eqn:Hf; [|by left].
    right. exists v. repeat split. by left.
Qed.

(** In every case the cache after the call differs from the one before
    in the entry under the entity's key at most. *)
Lemma get_or_fetch_final_entry c e s t f m :
  final (get_or_fetch c e s t f m) = c
  ∨ ∃ ent', final (get_or_fetch c e s t f m) = with_entry c e ent'.
Proof.
  destruct (get_or_fetch_final c e s t f m)
    as [Hsame|(v & Hen & _ & [[_ ->]|[_ ->]])]; [by left|..].
  - destruct (update_cache_cases c e v t) as [[-> _]|(items & _ & _ & _ & ->)];
      [by left|right; by eexists].
  - right. destruct (update_cache_cases c e v t)
      as [[-> _]|(items & _ & _ & _ & ->)]; [by eexists|].
    rewrite with_entry_twice. by eexists.
Qed.

Lemma update_cache_final_entry c e new_data end_time :
  update_cache c e new_data end_time = c
  ∨ ∃ ent', update_cache c e new_data end_time = with_entry c e ent'.
Proof.
  destruct (update_cache_cases c e new_data end_time)
    as [[-> _]|(items & _ & _ & _ & ->)]; [by left|right; by eexists].
Qed.

Lemma with_entry_other c e ent k :
  k ≠ lower e → cache_data (with_entry c e ent) !! k = cache_data c !! k.
Proof. intros Hk. unfold with_entry. simpl. by rewrite lookup_insert_ne. Qed.

(** X1. Frame. [update_cache] and [get_or_fetch] leave the [enabled] flag
    and the entry of every other entity key as they are. *)
Theorem other_entries_untouched c e k :
  k ≠ lower e →
  (∀ new_data end_time,
     cache_data (update_cache c e new_data end_time) !! k = cache_data c !! k ∧
     enabled (update_cache c e new_data end_time) = enabled c) ∧
  (∀ start_time end_time fetch_func minimal,
     let r := get_or_fetch c e start_time end_time fetch_func minimal in
     cache_data (final r) !! k = cache_data c !! k ∧
     enabled (final r) = enabled c).
Proof.
  intros Hk. split.
  - intros new_data end_time.
    destruct (update_cache_final_entry c e new_data end_time) as [->|[ent' ->]];
      [done|]. by rewrite with_entry_other.
  - intros start_time end_time fetch_func minimal r. subst r.
    destruct (get_or_fetch_final_entry c e start_time end_time fetch_func minimal)
      as [->|[ent' ->]]; [done|]. by rewrite with_entry_other.
Qed.

(** X2. Entity ids are compared without regard to (ASCII) case: two ids
    with the same lower-case form are one entity for [update_cache] and
    for [get_or_fetch]. *)
Theorem entity_id_case_insensitive c e e' :
  lower e = lower e' →
  (∀ new_data end_time,
     update_cache c e new_data end_time = update_cache c e' new_data end_time) ∧
  (∀ start_time end_time fetch_func minimal,
     get_or_fetch c e start_time end_time fetch_func minimal =
     get_or_fetch c e' start_time end_time fetch_func minimal).
Proof.
  intros Hk. split.
  - intros new_data end_time. by apply update_cache_same_key.
  - intros s t f m. unfold get_or_fetch, fetch_and_update. rewrite Hk.
    destruct (negb (enabled c)); [done|].
    destruct (cache_data c !! lower e') as [ent|].
    + destruct (f (latest ent) t m) as [v|x]; [|done].
      by rewrite (update_cache_same_key c e e').
    + destruct (f (Some s) t m) as [v|x]; [|done].
      by rewrite (update_cache_same_key c e e').
Qed.

(** X3. The keys of the cache are lower-cased entity ids, and every
    operation keeps them so. *)
Theorem keys_stay_lower c :
  keys_lower c →
  (∀ enabled', keys_lower (configure c enabled')) ∧
  (∀ e new_data end_time, keys_lower (update_cache c e new_data end_time)) ∧
  (∀ e start_time end_time fetch_func minimal,
     keys_lower (final (get_or_fetch c e start_time end_time fetch_func minimal))).
Proof.
  intros Hc.
  assert (∀ e ent', keys_lower (with_entry c e ent')) as Hwith.
  { intros e ent' k ent Hk. destruct (decide (k = lower e)) as [->|Hne].
    - apply lower_idemp.
    - rewrite with_entry_other in Hk by done. by eapply Hc. }
  split; [|split].
  - intros [|]; unfold keys_lower, configure; simpl; [exact Hc|].
    intros k e Hk. by rewrite lookup_empty in Hk.
  - intros e new_data end_time.
    by destruct (update_cache_final_entry c e new_data end_time) as [->|[ent' ->]].
  - intros e s t f m.
    by destruct (get_or_fetch_final_entry c e s t f m) as [->|[ent' ->]].
Qed.

(** **** Entries persist and [latest] only grows *)

Lemma no_earlier_refl a : no_earlier a a.
Proof. intros l ->. exists l. split; [done|lia]. Qed.

Lemma no_earlier_later a b : no_earlier a (later a b).
Proof. intros l ->. destruct b; simpl; eexists; split; eauto; lia. Qed.

Lemma update_cache_persists c e new_data end_time k ent :
  cache_data c !! k = Some ent →
  ∃ ent', cache_data (update_cache c e new_data end_time) !! k = Some ent' ∧
          no_earlier (latest ent) (latest ent').
Proof.
  intros Hk.
  destruct (update_cache_cases c e new_data end_time)
    as [[-> _]|(items & _ & _ & _ & ->)].
  - exists ent. split; [done|apply no_earlier_refl].
  - destruct (decide (k = lower e)) as [->|Hne].
    + rewrite (entry_of_lookup _ _ _ Hk). eexists. split.
      * unfold with_entry. simpl. apply lookup_insert_eq.
      * apply no_earlier_later.
    + exists ent. rewrite with_entry_other by done.
      split; [done|apply no_earlier_refl].
Qed.

(** X4. An entry, once created, is never removed by [update_cache] or
    [get_or_fetch], and its [latest] never moves back nor becomes absent. *)
Theorem entries_persist_latest_grows c k ent :
  cache_data c !! k = Some ent →
  (∀ e new_data end_time,
     ∃ ent', cache_data (update_cache c e new_data end_time) !! k = Some ent' ∧
             no_earlier (latest ent) (latest ent')) ∧
  (∀ e start_time end_time fetch_func minimal,
     ∃ ent',
       cache_data (final (get_or_fetch c e start_time end_time fetch_func minimal))
         !! k = Some ent' ∧
       no_earlier (latest ent) (latest ent')).
Proof.
  intros Hk. split.
  - intros e new_data end_time. by apply update_cache_persists.
  - intros e s t f m.
    destruct (get_or_fetch_final c e s t f m)
      as [->|(v & _ & _ & [[_ ->]|[_ ->]])].
    + exists ent. split; [done|apply no_earlier_refl].
    + by apply update_cache_persists.
    + destruct (update_cache_persists c e v t k ent Hk) as (ent1 & Hk1 & Hle).
      destruct (decide (k = lower e)) as [->|Hne].
      * rewrite (entry_of_lookup _ _ _ Hk1). exists (pruned s ent1).
        split; [|exact Hle]. unfold with_entry. simpl. apply lookup_insert_eq.
      * exists ent1. by rewrite with_entry_other.
Qed.

(** **** What a merge stores *)

(** X5. A merge never drops a stored item; it adds exactly those items of
    the normalized batch that carry a timestamp no stored item had before
    the call. *)
Theorem update_cache_stored_items c e items end_time :
  enabled c = true →
  items ≠ [] →
  let before := entry_of c e in
  let after := entry_of (update_cache c e (Some items) end_time) e in
  data after ≡ₚ data before ++ added before (normalize items) ∧
  ∀ item,
    item ∈ data after ↔
    item ∈ data before ∨
    item ∈ normalize items ∧
    ∃ ts, _get_timestamp item = Some ts ∧
          ∀ old, old ∈ data before → _get_timestamp old ≠ Some ts.
Proof.
  intros Hen Hne before after. subst after.
  rewrite (update_cache_merged _ _ _ items), entry_of_with_entry by done.
  fold before. split.
  - unfold merged. simpl. apply sort_by_timestamp_perm.
  - intros item. by rewrite elem_of_merged, elem_of_added.
Qed.

(** [update_cache] ignores its [end_time] argument: [latest] is never
    clamped to it. *)
Lemma update_cache_ignores_end_time c e new_data end_time end_time' :
  update_cache c e new_data end_time = update_cache c e new_data end_time'.
Proof. reflexivity. Qed.

(** **** The prune on a well-kept entry *)

Lemma filter_all (P : pyval → bool) l :
  Forall (λ x, P x = true) l → List.filter P l = l.
Proof. induction 1 as [|x l Hx _ IH]; simpl; [done|]. by rewrite Hx, IH. Qed.

Lemma filter_filter (P Q : pyval → bool) l :
  List.filter P (List.filter Q l) = List.filter (λ x, Q x && P x) l.
Proof.
  induction l as [|x l IH]; simpl; [done|].
  destruct (Q x); simpl; [|done]. destruct (P x); by rewrite IH.
Qed.

Lemma time_sorted_filter (P : pyval → bool) l :
  time_sorted l → time_sorted (List.filter P l).
Proof.
  unfold time_sorted. induction 1 as [|x l Hs IH Hall]; simpl; [constructor|].
  destruct (P x); [|done]. constructor; [done|].
  rewrite Forall_forall in *. intros y Hy. apply Hall.
  apply list_elem_of_In in Hy. apply filter_In in Hy as [Hy _].
  by apply list_elem_of_In.
Qed.

Lemma sort_key_timestamp item ts : _get_timestamp item = Some ts → sort_key item = ts.
Proof. unfold sort_key. by intros ->. Qed.

(** On a sorted sequence of records the prune removes every item older
    than [start_time], not only the leading ones. *)
Lemma prune_recent start_time l :
  time_sorted l → Forall (λ item, has_timestamp item = true) l →
  prune start_time l = List.filter (recent start_time) l.
Proof.
  unfold time_sorted. induction 1 as [|x l Hs IH Hall]; intros Hwf; [done|].
  apply Forall_cons in Hwf as [Hx Hwf].
  apply has_timestamp_true in Hx as [ts Hts].
  cbn [prune List.filter]. unfold recent at 1. rewrite Hts.
  destruct (N.ltb_spec ts start_time) as [Hlt|Hge].
  - destruct (N.leb_spec start_time ts); [lia|]. by apply IH.
  - destruct (N.leb_spec start_time ts); [|lia]. f_equal. symmetry.
    apply filter_all. rewrite Forall_forall in *. intros y Hy.
    destruct (proj1 (has_timestamp_true y) (Hwf y Hy)) as [ts' Hts'].
    specialize (Hall y Hy). rewrite (sort_key_timestamp _ _ Hts) in Hall.
    rewrite (sort_key_timestamp _ _ Hts') in Hall.
    unfold recent. rewrite Hts'. apply N.leb_le. lia.
Qed.

Lemma update_cache_entry_ok c e new_data end_time :
  entry_ok (entry_of c e) → entry_ok (entry_of (update_cache c e new_data end_time) e).
Proof.
  intros Hok.
  destruct (update_cache_cases c e new_data end_time)
    as [[-> _]|(items & _ & _ & _ & ->)]; [done|].
  rewrite entry_of_with_entry. by apply merged_ok.
Qed.

(** X6. For an entity that has a well-kept entry (records only, sorted,
    none later than [latest]), [get_or_fetch] returns exactly the records
    of the merged entry with [start_time <= timestamp <= end_time], in
    ascending order, and keeps in storage exactly those with
    [start_time <= timestamp]. *)
Theorem get_or_fetch_returns_window c e ent start_time end_time fetch_func minimal v :
  enabled c = true →
  cache_data c !! lower e = Some ent →
  entry_ok ent →
  fetch_func (latest ent) end_time minimal = FetchReturn v →
  let r := get_or_fetch c e start_time end_time fetch_func minimal in
  let merged_data := data (entry_of (update_cache c e v end_time) e) in
  result r = Returned (Some (List.filter (between start_time end_time) merged_data)) ∧
  data (entry_of (final r) e) = List.filter (recent start_time) merged_data ∧
  time_sorted (List.filter (between start_time end_time) merged_data).
Proof.
  intros Hen Hk Hok Hf r merged_data. subst r.
  rewrite (get_or_fetch_entry_return _ _ _ _ _ _ ent v) by done.
  cbn [result final]. rewrite entry_of_with_entry. cbn [pruned data].
  fold merged_data.
  assert (entry_ok (entry_of (update_cache c e v end_time) e)) as (Hwf & Hs & _).
  { apply update_cache_entry_ok. by rewrite (entry_of_lookup _ _ _ Hk). }
  fold merged_data in Hs. unfold stored_well_formed in Hwf. fold merged_data in Hwf.
  rewrite (prune_recent _ _ Hs Hwf). unfold window. rewrite filter_filter.
  repeat split. by apply time_sorted_filter.
Qed.

Lemma sublist_filter_elementary (P : pyval → bool) l :
  List.filter P l `sublist_of` l.
Proof.
  induction l as [|x l IH]; simpl; [done|].
  destruct (P x); by constructor.
Qed.

(** X7. When [fetch_func] returns nothing (absent or empty), it has been
    asked once and nothing is merged. An unknown entity gets no entry and
    the value is handed back as it is. A known entity's entry loses its
    leading items older than [start_time] -- all of them up to the first
    item that is not older -- and nothing else, [latest] stays, and the
    items left whose timestamp is at most [end_time] are returned, in
    their stored order. *)
Theorem get_or_fetch_nothing_fetched c e start_time end_time fetch_func minimal v :
  enabled c = true →
  fetch_func (requested_start c e start_time) end_time minimal = FetchReturn v →
  truthy_data v = false →
  let r := get_or_fetch c e start_time end_time fetch_func minimal in
  fetches r = [mkCall (requested_start c e start_time) end_time minimal] ∧
  match cache_data c !! lower e with
  | None => result r = Returned v ∧ final r = c
  | Some ent =>
      let stored := data (entry_of (final r) e) in
      (∃ gone, data ent = gone ++ stored ∧ Forall (older start_time) gone ∧
               match stored with
               | [] => True
               | first :: _ => ¬ older start_time first
               end) ∧
      latest (entry_of (final r) e) = latest ent ∧
      final r = with_entry c e (mkEntry stored (latest ent)) ∧
      ∃ returned,
        result r = Returned (Some returned) ∧
        returned = List.filter (in_window end_time) stored ∧
        returned `sublist_of` stored ∧
        ∀ item, item ∈ returned ↔
                item ∈ stored ∧
                ∃ ts, _get_timestamp item = Some ts ∧ ts ≤ end_time
  end.
Proof.
  intros Hen Hf Hv. cbv zeta. split; [apply get_or_fetch_fetches|].
  unfold requested_start in Hf. rewrite Hen in Hf.
  destruct (cache_data c !! lower e) as [ent|] eqn:Hk.
  - rewrite (get_or_fetch_entry_return _ _ _ _ _ _ ent v) by done.
    cbn [result final]. rewrite update_cache_empty by done.
    rewrite entry_of_with_entry, (entry_of_lookup _ _ _ Hk).
    cbn [pruned data latest]. split; [|split; [done|split; [done|]]].
    + destruct (prune_split start_time (data ent)) as (gone & Hsplit & Hgone).
      exists gone. repeat split; try done.
      destruct (prune start_time (data ent)) as [|first rest] eqn:Hp; [done|].
      by eapply prune_head.
    + eexists. split; [done|]. split; [done|]. split.
      * unfold window. apply sublist_filter_elementary.
      * intros item. unfold window.
        by rewrite list_elem_of_In, filter_In, <- list_elem_of_In, in_window_true.
  - rewrite get_or_fetch_no_entry, Hf by done. cbn [result final outcome_of].
    by rewrite update_cache_empty.
Qed.

(** **** From one call to the next *)

(** The entry a call leaves behind when the fetch returned something:
    the merge, pruned if the entity was known. *)
Lemma get_or_fetch_fetched_entry c e s t f m items :
  enabled c = true →
  f (requested_start c e s) t m = FetchReturn (Some items) →
  items ≠ [] →
  let c' := final (get_or_fetch c e s t f m) in
  enabled c' = true ∧
  ∃ ent', cache_data c' !! lower e = Some ent' ∧
          latest ent' = latest (merged (entry_of c e) (normalize items)).
Proof.
  intros Hen Hf Hne. cbv zeta. unfold requested_start in Hf. rewrite Hen in Hf.
  destruct (cache_data c !! lower e) as [ent|] eqn:Hk.
  - rewrite (get_or_fetch_entry_return _ _ _ _ _ _ ent (Some items)) by done.
    cbn [final]. rewrite (update_cache_merged _ _ _ items) by done.
    rewrite entry_of_with_entry. split; [done|].
    exists (pruned s (merged (entry_of c e) (normalize items))).
    split; [|done]. unfold with_entry. simpl. apply lookup_insert_eq.
  - rewrite get_or_fetch_no_entry, Hf by done. cbn [final].
    rewrite (update_cache_merged _ _ _ items) by done.
    split; [done|]. exists (merged (entry_of c e) (normalize items)).
    split; [|done]. unfold with_entry. simpl. apply lookup_insert_eq.
Qed.

(** X8. After a call whose fetch returned data, the next call for the same
    entity asks [fetch_func] for a window that starts at the entry's
    [latest]: the greater of the former [latest] and the newest timestamp
    merged. For an entity unknown before, that is the newest timestamp of
    the fetched data, and no start at all ([None]) when none of the fetched
    items carried a timestamp. *)
Theorem next_fetch_starts_at_latest
    c e start_time end_time fetch_func minimal items
    start_time' end_time' fetch_func' minimal' :
  enabled c = true →
  fetch_func (requested_start c e start_time) end_time minimal
    = FetchReturn (Some items) →
  items ≠ [] →
  let c' := final (get_or_fetch c e start_time end_time fetch_func minimal) in
  fetches (get_or_fetch c' e start_time' end_time' fetch_func' minimal') =
    [mkCall (later (latest (entry_of c e))
                   (max_timestamp (added (entry_of c e) (normalize items))))
            end_time' minimal'] ∧
  (cache_data c !! lower e = None →
   requested_start c' e start_time' = max_timestamp (normalize items)).
Proof.
  intros Hen Hf Hne c'.
  destruct (get_or_fetch_fetched_entry c e start_time end_time fetch_func minimal
              items Hen Hf Hne) as (Hen' & ent' & Hk' & Hl').
  fold c' in Hen', Hk'.
  assert (requested_start c' e start_time' = latest ent') as Hstart.
  { unfold requested_start. by rewrite Hen', Hk'. }
  split.
  - by rewrite get_or_fetch_fetches, Hstart, Hl'.
  - intros Hk. rewrite Hstart, Hl', (entry_of_absent _ _ Hk).
    by rewrite merged_empty_entry.
Qed.

(** **** Distinct timestamps *)

Lemma prune_distinct start_time l :
  distinct_timestamps l → distinct_timestamps (prune start_time l).
Proof.
  unfold distinct_timestamps, timestamps.
  destruct (prune_split start_time l) as (gone & Hl & _).
  rewrite Hl at 1. rewrite omap_app. by intros (_ & _ & ?)%NoDup_app.
Qed.

Lemma update_cache_distinct c e v end_time :
  every_entry (λ ent, distinct_timestamps (data ent)) c →
  distinct_timestamps (normalize (default [] v)) →
  every_entry (λ ent, distinct_timestamps (data ent)) (update_cache c e v end_time).
Proof.
  intros Hc Hv.
  destruct (update_cache_cases c e v end_time)
    as [[-> _]|(items & -> & _ & _ & ->)]; [done|].
  apply with_entry_every; [done|]. apply merged_distinct; [|done].
  apply (entry_of_every (λ ent, distinct_timestamps (data ent))); [done|].
  constructor.
Qed.

(** X9. As long as no batch repeats a timestamp within itself, stored
    timestamps stay pairwise distinct, through [update_cache] and through
    [get_or_fetch]. *)
Theorem distinct_timestamps_kept c e :
  every_entry (λ ent, distinct_timestamps (data ent)) c →
  (∀ new_data end_time,
     distinct_timestamps (normalize (default [] new_data)) →
     every_entry (λ ent, distinct_timestamps (data ent))
       (update_cache c e new_data end_time)) ∧
  (∀ start_time end_time fetch_func minimal,
     (∀ v, fetch_func (requested_start c e start_time) end_time minimal
             = FetchReturn v →
           distinct_timestamps (normalize (default [] v))) →
     every_entry (λ ent, distinct_timestamps (data ent))
       (final (get_or_fetch c e start_time end_time fetch_func minimal))).
Proof.
  intros Hc. split.
  - intros new_data end_time Hv. by apply update_cache_distinct.
  - intros s t f m Hfetch.
    destruct (get_or_fetch_final c e s t f m)
      as [->|(v & _ & Hf & [[_ ->]|[_ ->]])]; [done|..].
    + apply update_cache_distinct; auto.
    + assert (every_entry (λ ent, distinct_timestamps (data ent))
                (update_cache c e v t)) as Hc'
        by (apply update_cache_distinct; auto).
      apply with_entry_every; [done|]. simpl. apply prune_distinct.
      apply (entry_of_every (λ ent, distinct_timestamps (data ent))); [done|].
      constructor.
Qed.

(** **** [configure] *)

(** X10. Disabling the cache forgets every entry, for good: enabled again,
    the cache is empty, so the next [get_or_fetch] of any entity fetches
    the whole requested window. Enabling alone keeps the entries. *)
Theorem configure_disable_forgets c e start_time end_time fetch_func minimal :
  let off := configure c false in
  let on := configure off true in
  cache_data (configure c true) = cache_data c ∧
  enabled off = false ∧ cache_data off = ∅ ∧
  enabled on = true ∧ cache_data on = ∅ ∧
  fetches (get_or_fetch on e start_time end_time fetch_func minimal)
    = [mkCall (Some start_time) end_time minimal] ∧
  result (get_or_fetch on e start_time end_time fetch_func minimal)
    = outcome_of (fetch_func (Some start_time) end_time minimal).
Proof.
  intros off on. repeat split.
  - by rewrite get_or_fetch_fetches.
  - by rewrite get_or_fetch_no_entry.
Qed.

(** **** [_get_timestamp] *)

(** X11. An item has a timestamp exactly when it is a mapping whose
    ["last_changed"] value is a non-empty string that
    [datetime.fromisoformat] accepts; a missing key, an empty string and
    a value that is not a string all give no timestamp. *)
Theorem get_timestamp_some item ts :
  _get_timestamp item = Some ts ↔
  ∃ d s, item = PDict d ∧ dict_get "last_changed" d = PStr s ∧
         s ≠ "" ∧ fromisoformat s = Some ts.
Proof.
  split.
  - destruct item as [| | | | |d]; try done. unfold _get_timestamp.
    destruct (dict_get "last_changed" d) as [| | |s| |] eqn:Hd;
      try by destruct (truthy _).
    simpl. destruct (String.eqb_spec s ""); [done|]. simpl.
    intros Hs. by exists d, s.
  - intros (d & s & -> & Hd & Hne & Hs). unfold _get_timestamp. rewrite Hd.
    simpl. by destruct (String.eqb_spec s "").
Qed.

(** **** Asking again *)

Lemma prune_idemp start_time l :
  prune start_time (prune start_time l) = prune start_time l.
Proof.
  induction l as [|x l IH]; [done|]. cbn [prune].
  destruct (_get_timestamp x) as [ts|] eqn:Hts.
  - destruct (ts <? start_time) eqn:Hlt; [done|]. cbn [prune]. by rewrite Hts, Hlt.
  - cbn [prune]. by rewrite Hts.
Qed.

Lemma insert_sorted_front x l :
  Forall (λ y, sort_key x ≤ sort_key y) l → insert_sorted x l = x :: l.
Proof.
  destruct 1 as [|y l Hy _]; [done|]. simpl.
  by destruct (N.leb_spec (sort_key x) (sort_key y)); [|lia].
Qed.

(** The sort commutes with any selection of items. *)
Lemma insert_sorted_select (P : pyval → bool) x l :
  time_sorted l →
  List.filter P (insert_sorted x l) =
    if P x then insert_sorted x (List.filter P l) else List.filter P l.
Proof.
  unfold time_sorted. induction 1 as [|y l Hs IH Hall]; [by simpl; destruct (P x)|].
  cbn [insert_sorted].
  destruct (N.leb_spec (sort_key x) (sort_key y)) as [Hle|Hlt].
  - cbn [List.filter]. destruct (P x) eqn:Hx; [|done].
    destruct (P y) eqn:Hy.
    + cbn [insert_sorted]. by destruct (N.leb_spec (sort_key x) (sort_key y)); [|lia].
    + symmetry. apply insert_sorted_front. rewrite Forall_forall in *.
      intros z Hz. apply list_elem_of_In, filter_In in Hz as [Hz _].
      apply list_elem_of_In in Hz. specialize (Hall z Hz). simpl in Hall. lia.
  - cbn [List.filter]. rewrite IH. destruct (P x) eqn:Hx, (P y) eqn:Hy; try done.
    cbn [insert_sorted]. by destruct (N.leb_spec (sort_key x) (sort_key y)); [lia|].
Qed.

Lemma sort_by_timestamp_select (P : pyval → bool) l :
  List.filter P (sort_by_timestamp l) = sort_by_timestamp (List.filter P l).
Proof.
  induction l as [|x l IH]; [done|]. cbn [sort_by_timestamp List.filter].
  rewrite insert_sorted_select by apply sort_by_timestamp_sorted.
  destruct (P x); by rewrite IH.
Qed.

(** Every timestamp of the batch is stored after the merge. *)
Lemma merged_covers e items item ts :
  item ∈ items → _get_timestamp item = Some ts →
  ∃ old, old ∈ data (merged e items) ∧ _get_timestamp old = Some ts.
Proof.
  intros Hin Hts.
  destruct (decide (ts ∈ timestamps (data e))) as [Hstored|Hnone];
    rewrite elem_of_timestamps in *.
  - destruct Hstored as (old & Hold & Hts'). exists old. split; [|done].
    apply elem_of_merged. by left.
  - exists item. split; [|done]. apply elem_of_merged. right.
    apply elem_of_added. split; [done|]. exists ts. split; [done|].
    intros old Hold Hts'. apply Hnone. eauto.
Qed.

Lemma later_bounded a l :
  (∀ item ts, item ∈ l → _get_timestamp item = Some ts →
              ∃ m, a = Some m ∧ ts ≤ m) →
  later a (max_timestamp l) = a.
Proof.
  intros Hall. destruct (max_timestamp l) as [m|] eqn:Hm; [|apply later_None_r].
  apply max_timestamp_attained in Hm as (item & Hin & Hts).
  destruct (Hall _ _ Hin Hts) as (m' & -> & Hle). simpl. f_equal. lia.
Qed.

Lemma recent_timestamp start_time item ts :
  _get_timestamp item = Some ts → recent start_time item = (start_time <=? ts).
Proof. unfold recent. by intros ->. Qed.

(** Merging the same batch into the pruned entry and pruning again gives
    the pruned entry back. *)
Lemma pruned_merged_again start_time e items :
  entry_ok e →
  pruned start_time (merged (pruned start_time (merged e items)) items)
    = pruned start_time (merged e items).
Proof.
  intros Hok.
  set (em := merged e items). set (p := pruned start_time em).
  assert (entry_ok em) as Hem by by apply merged_ok.
  assert (entry_ok p) as Hp by by apply pruned_ok.
  assert (data p = List.filter (recent start_time) (data em)) as Hdata.
  { destruct Hem as (Hwf & Hs & _). by apply prune_recent. }
  assert (∀ x, x ∈ added p items → recent start_time x = false) as Hold.
  { intros x (Hin & ts & Hts & Hnew)%elem_of_added.
    destruct (merged_covers e items x ts Hin Hts) as (old & Hin' & Hts').
    fold em in Hin'. apply not_true_is_false. intros Hrecent.
    apply (Hnew old); [|done]. rewrite Hdata.
    apply list_elem_of_In, filter_In. split; [by apply list_elem_of_In|].
    by rewrite (recent_timestamp _ _ _ Hts'), <- (recent_timestamp _ _ _ Hts). }
  assert (later (latest p) (max_timestamp (added p items)) = latest p) as Hlatest.
  { apply later_bounded. intros x ts (Hin & ts' & Hts' & _)%elem_of_added Hts.
    destruct (merged_covers e items x ts Hin Hts) as (old & Hin' & Hold').
    destruct Hem as (_ & _ & Hb). by apply (Hb old ts). }
  assert (prune start_time (data (merged p items)) = data p) as Hpruned.
  { destruct (merged_ok p items Hp) as (Hwf' & Hs' & _).
    rewrite (prune_recent _ _ Hs' Hwf'). unfold merged. cbn [data].
    rewrite sort_by_timestamp_select, List.filter_app.
    rewrite (filter_none _ (added p items)) by done. rewrite app_nil_r.
    rewrite (filter_all _ (data p)).
    - apply sort_by_timestamp_id. by destruct Hp as (_ & ? & _).
    - rewrite Hdata, Forall_forall. intros x Hx.
      by apply list_elem_of_In, filter_In in Hx as [_ ?]. }
  change (mkEntry (prune start_time (data (merged p items)))
                  (later (latest p) (max_timestamp (added p items))) = p).
  rewrite Hpruned, Hlatest. by destruct p.
Qed.

(** X12. Asking again for the same window, with a backend that answers
    with the same data, returns the same records and leaves the cache as
    the first call left it. *)
Theorem get_or_fetch_repeat c e ent start_time end_time fetch_func minimal v :
  enabled c = true →
  cache_data c !! lower e = Some ent →
  entry_ok ent →
  fetch_func (latest ent) end_time minimal = FetchReturn v →
  let r1 := get_or_fetch c e start_time end_time fetch_func minimal in
  fetch_func (latest (entry_of (final r1) e)) end_time minimal = FetchReturn v →
  let r2 := get_or_fetch (final r1) e start_time end_time fetch_func minimal in
  result r2 = result r1 ∧ final r2 = final r1.
Proof.
  intros Hen Hk Hok Hf r1. subst r1.
  rewrite (get_or_fetch_entry_return _ _ _ _ _ _ ent v) by done.
  cbn [final result]. rewrite entry_of_with_entry.
  set (cm := update_cache c e v end_time). set (em := entry_of cm e).
  set (p := pruned start_time em). set (c1 := with_entry cm e p).
  intros Hf2.
  assert (enabled c1 = true) as Hen1
    by (unfold c1, cm; simpl; by rewrite update_cache_enabled).
  assert (cache_data c1 !! lower e = Some p) as Hk1
    by (unfold c1, with_entry; simpl; apply lookup_insert_eq).
  rewrite (get_or_fetch_entry_return _ _ _ _ _ _ p v) by done.
  cbn [final result].
  set (cm2 := update_cache c1 e v end_time).
  assert (pruned start_time (entry_of cm2 e) = p ∧ with_entry cm2 e p = c1)
    as [Hp Hc].
  { unfold cm2. destruct (update_cache_cases c1 e v end_time)
      as [[-> _]|(items & Hv & Hne & _ & ->)].
    - rewrite (entry_of_lookup _ _ _ Hk1). split.
      + unfold p, pruned. simpl. by rewrite prune_idemp.
      + unfold c1. apply with_entry_twice.
    - rewrite entry_of_with_entry, (entry_of_lookup _ _ _ Hk1). split.
      + unfold p, em, cm. rewrite (update_cache_merged _ _ _ items) by done.
        rewrite entry_of_with_entry, (entry_of_lookup _ _ _ Hk).
        by apply pruned_merged_again.
      + rewrite with_entry_twice. unfold c1. apply with_entry_twice. }
  rewrite Hp, Hc. split; [|done].
  change (prune start_time (data (entry_of cm2 e)))
    with (data (pruned start_time (entry_of cm2 e))). by rewrite Hp.
Qed.

(** **** Independent entities, successive prunes *)

Lemma entry_of_with_entry_other c e e' ent :
  lower e ≠ lower e' → entry_of (with_entry c e ent) e' = entry_of c e'.
Proof. intros Hne. unfold entry_of. by rewrite with_entry_other. Qed.

Lemma with_entry_comm c e e' ent ent' :
  lower e ≠ lower e' →
  with_entry (with_entry c e ent) e' ent' = with_entry (with_entry c e' ent') e ent.
Proof.
  intros Hne. unfold with_entry. simpl. f_equal. by apply insert_insert_ne.
Qed.

(** X13. Merges into two different entities do not interfere: they give the
    same cache in either order. *)
Theorem update_cache_entities_commute c e1 d1 t1 e2 d2 t2 :
  lower e1 ≠ lower e2 →
  update_cache (update_cache c e1 d1 t1) e2 d2 t2 =
  update_cache (update_cache c e2 d2 t2) e1 d1 t1.
Proof.
  intros Hne.
  destruct (enabled c) eqn:Hen.
  2: { rewrite (update_cache_disabled c e1), (update_cache_disabled c e2) by done.
       by rewrite !update_cache_disabled. }
  destruct (truthy_data d1) eqn:Hd1.
  2: { by rewrite (update_cache_empty c e1 d1), (update_cache_empty _ e1 d1). }
  destruct (truthy_data d2) eqn:Hd2.
  2: { by rewrite (update_cache_empty c e2 d2), (update_cache_empty _ e2 d2). }
  apply truthy_data_true in Hd1 as (items1 & -> & Hne1).
  apply truthy_data_true in Hd2 as (items2 & -> & Hne2).
  rewrite (update_cache_merged c e1 _ items1) by done.
  rewrite (update_cache_merged c e2 _ items2) by done.
  rewrite (update_cache_merged _ e2 _ items2) by done.
  rewrite (update_cache_merged _ e1 _ items1) by done.
  rewrite !entry_of_with_entry_other by done.
  by apply with_entry_comm.
Qed.

Lemma recent_max s1 s2 item :
  recent s1 item && recent s2 item = recent (N.max s1 s2) item.
Proof.
  unfold recent. destruct (_get_timestamp item) as [ts|]; [|done].
  destruct (N.leb_spec s1 ts), (N.leb_spec s2 ts),
    (N.leb_spec (N.max s1 s2) ts); simpl; try done; lia.
Qed.

(** X14. Pruning is for good. After two queries that fetched nothing, the
    entry holds exactly the records at or after the later of the two
    start times, whichever came first: asking from an earlier time again
    does not bring pruned records back. *)
Theorem successive_prunes c e ent s1 t1 f1 m1 v1 s2 t2 f2 m2 v2 :
  enabled c = true →
  cache_data c !! lower e = Some ent →
  entry_ok ent →
  f1 (latest ent) t1 m1 = FetchReturn v1 → truthy_data v1 = false →
  f2 (latest ent) t2 m2 = FetchReturn v2 → truthy_data v2 = false →
  let c1 := final (get_or_fetch c e s1 t1 f1 m1) in
  let c2 := final (get_or_fetch c1 e s2 t2 f2 m2) in
  data (entry_of c2 e) = List.filter (recent (N.max s1 s2)) (data ent) ∧
  latest (entry_of c2 e) = latest ent.
Proof.
  intros Hen Hk (Hwf & Hs & Hb) Hf1 Hv1 Hf2 Hv2. cbv zeta.
  rewrite (get_or_fetch_entry_return c e s1 t1 f1 m1 ent v1) by done.
  cbn [final]. rewrite update_cache_empty, (entry_of_lookup _ _ _ Hk) by done.
  rewrite (get_or_fetch_entry_return _ _ _ _ _ _ (pruned s1 ent) v2);
    [|done|unfold with_entry; simpl; apply lookup_insert_eq|done].
  cbn [final]. rewrite update_cache_empty by done.
  rewrite !entry_of_with_entry. cbn [pruned data latest]. split; [|done].
  rewrite (prune_recent s1 _ Hs Hwf).
  rewrite prune_recent.
  - rewrite filter_filter. apply filter_ext. intros x. apply recent_max.
  - by apply time_sorted_filter.
  - unfold stored_well_formed in Hwf. rewrite Forall_forall in *. intros x Hx.
    apply Hwf. apply list_elem_of_In, filter_In in Hx as [Hx _].
    by apply list_elem_of_In.
Qed.

End HistoryCache.

(** ** The cache run on concrete records *)

Example sample_timestamps :
  Iso.fromisoformat t0_iso = Some T0 ∧ Iso.fromisoformat t1_iso = Some T1 ∧
  Iso.fromisoformat t2_iso = Some T2 ∧ Iso.fromisoformat t3_iso = Some T3 ∧
  Iso.fromisoformat "0001-01-01T00:00:00+00:00" = Some datetime_min ∧
  Iso.fromisoformat "2023-02-29T00:00:00+00:00" = None.
Proof. by vm_compute. Qed.

Example sample_malformed :
  _get_timestamp Iso.fromisoformat (PStr "not-a-dict") = None ∧
  _get_timestamp Iso.fromisoformat (PDict [("v", PInt 1)]) = None ∧
  _get_timestamp Iso.fromisoformat (PDict [("last_changed", PStr "")]) = None ∧
  _get_timestamp Iso.fromisoformat (PDict [("last_changed", PInt 5)]) = None ∧
  _get_timestamp Iso.fromisoformat (PDict [("last_changed", PStr "yesterday")]) = None.
Proof. by vm_compute. Qed.

(** [warm_cache] is the empty cache after one merge of three records. *)
Example warm_cache_reached :
  update_cache Iso.fromisoformat enabled_cache "sensor.temp"
    (Some [record t2_iso 3; record t0_iso 1; record t1_iso 2]) T2 = warm_cache.
Proof. by vm_compute. Qed.

(** Scenario of the specification: a malformed item between two records
    is dropped, the records are stored. *)
Example malformed_item_dropped :
  cache_data (update_cache Iso.fromisoformat enabled_cache "Sensor.Temp"
                (Some [record t1_iso 2; PStr "not-a-dict"; record t0_iso 1]) T1)
    !! "sensor.temp"
  = Some (mkEntry [record t0_iso 1; record t1_iso 2] (Some T1)).
Proof. by vm_compute. Qed.

(** Scenario of the specification: a query from [T1] on removes the record
    at [T0] from storage and returns the two others. *)
Example prune_scenario :
  let r := get_or_fetch Iso.fromisoformat warm_cache "sensor.temp" T1 T2
             (fetch_const None) false in
  result r = Returned (Some [record t1_iso 2; record t2_iso 3]) ∧
  cache_data (final r) !! "sensor.temp"
    = Some (mkEntry [record t1_iso 2; record t2_iso 3] (Some T2)) ∧
  fetches r = [mkCall (Some T2) T2 false].
Proof. by vm_compute. Qed.

Lemma enabled_cache_every P : every_entry P enabled_cache.
Proof. intros k e Hk. simpl in Hk. rewrite lookup_empty in Hk. discriminate Hk. Qed.

(** *** C1 *)

(** C1 fails as stated: the record at [T0] is the only one stored; a query
    from [T1] on prunes it, and the entry is left empty with [latest]
    still [T0]. *)
Lemma prune_leaves_latest_behind :
  let c := update_cache Iso.fromisoformat enabled_cache "sensor.temp"
             (Some [record t0_iso 1]) T0 in
  let r := get_or_fetch Iso.fromisoformat c "sensor.temp" T1 T2
             (fetch_const None) false in
  every_entry (entry_tight Iso.fromisoformat) c ∧
  cache_data (final r) !! "sensor.temp" = Some (mkEntry [] (Some T0)) ∧
  ¬ every_entry (latest_is_max Iso.fromisoformat) (final r).
Proof.
  intros c r. split; [|split].
  - apply update_cache_every;
      auto using merged_tight, empty_entry_tight, enabled_cache_every.
  - by vm_compute.
  - intros Hmax.
    specialize (Hmax "sensor.temp" (mkEntry [] (Some T0)) ltac:(by vm_compute)).
    discriminate Hmax.
Qed.

Lemma mutation_keeps_entry_invariant_witness :
  let c0 := update_cache Iso.fromisoformat enabled_cache "sensor.old"
              (Some [record t0_iso 1]) T0 in
  let c1 := final (get_or_fetch Iso.fromisoformat c0 "sensor.old" T1 T2
                     (fetch_const None) false) in
  let c2 := update_cache Iso.fromisoformat c1 "sensor.temp"
              (Some [record t1_iso 2; record t0_iso 1]) T1 in
  let c3 := update_cache Iso.fromisoformat c2 "sensor.temp"
              (Some [record t3_iso 4; record t1_iso 9]) T3 in
  every_entry (entry_ok Iso.fromisoformat) enabled_cache ∧
  every_entry (entry_ok Iso.fromisoformat) c3 ∧
  cache_data c1 !! "sensor.old" = Some (mkEntry [] (Some T0)) ∧
  latest (entry_of c1 "sensor.old") = latest (entry_of c0 "sensor.old") ∧
  cache_data c3 !! "sensor.temp"
    = Some (mkEntry [record t0_iso 1; record t1_iso 2; record t3_iso 4] (Some T3)) ∧
  entry_tight Iso.fromisoformat
    (mkEntry [record t0_iso 1; record t1_iso 2; record t3_iso 4] (Some T3)).
Proof.
  intros c0 c1 c2 c3.
  assert (every_entry (entry_ok Iso.fromisoformat) enabled_cache) as H.
  { intros k e Hk. simpl in Hk. rewrite lookup_empty in Hk. discriminate Hk. }
  destruct (mutation_keeps_entry_invariant Iso.fromisoformat enabled_cache H)
    as (Hupdate & _ & _ & _).
  pose proof (Hupdate "sensor.old" (Some [record t0_iso 1]) T0) as H0.
  fold c0 in H0.
  destruct (mutation_keeps_entry_invariant Iso.fromisoformat c0 H0)
    as (_ & Hfetch & _ & Hlatest).
  pose proof (Hfetch "sensor.old" T1 T2 (fetch_const None) false) as H1.
  fold c1 in H1.
  destruct (mutation_keeps_entry_invariant Iso.fromisoformat c1 H1)
    as (Hupdate1 & _ & Htight1 & _).
  pose proof (Hupdate1 "sensor.temp" (Some [record t1_iso 2; record t0_iso 1]) T1)
    as H2.
  fold c2 in H2.
  destruct (mutation_keeps_entry_invariant Iso.fromisoformat c2 H2)
    as (Hupdate2 & _ & Htight2 & _).
  split; [exact H|]. split; [apply Hupdate2|]. split; [reflexivity|].
  split; [exact (Hlatest "sensor.old" T1 T2 (fetch_const None) false)|].
  split; [reflexivity|].
  apply (Htight2 "sensor.temp" (Some [record t3_iso 4; record t1_iso 9]) T3
           "sensor.temp"); [reflexivity|].
  intros ent Hent.
  apply (Htight1 "sensor.temp" (Some [record t1_iso 2; record t0_iso 1]) T1
           "sensor.temp" ent Hent).
  intros ent0 Hent0. discriminate Hent0.
Defined.

(** *** C2 *)

(** C2: two records of one batch with the same timestamp are both stored;
    the set of known timestamps is built before the loop and never
    extended. *)
Lemma update_cache_same_timestamp_twice :
  let c := update_cache Iso.fromisoformat enabled_cache "sensor.temp"
             (Some [record t0_iso 1; record t0_iso 2]) T0 in
  cache_data c !! "sensor.temp"
    = Some (mkEntry [record t0_iso 1; record t0_iso 2] (Some T0)) ∧
  timestamps Iso.fromisoformat [record t0_iso 1; record t0_iso 2] = [T0; T0] ∧
  ¬ distinct_timestamps Iso.fromisoformat (data (entry_of c "sensor.temp")).
Proof.
  intros c. split; [by vm_compute|]. split; [by vm_compute|].
  intros Hdup. assert (T0 ∉ [T0]) as Hnot.
  { apply (NoDup_cons_1_1 T0 [T0]). exact Hdup. }
  apply Hnot. by left.
Qed.

(** *** C3 *)

Lemma get_or_fetch_delta_window_witness :
  let fetch := fetch_window (Some T2) T3 (Some [record t2_iso 9; record t3_iso 4]) in
  let r := get_or_fetch Iso.fromisoformat warm_cache "Sensor.Temp" T1 T3 fetch false in
  T1 < T2 < T3 ∧
  fetch (Some T2) T3 false = FetchReturn (Some [record t2_iso 9; record t3_iso 4]) ∧
  fetches r = [mkCall (Some T2) T3 false] ∧
  result r = Returned (Some [record t1_iso 2; record t2_iso 3; record t3_iso 4]) ∧
  cache_data (final r) !! "sensor.temp"
    = Some (mkEntry [record t1_iso 2; record t2_iso 3; record t3_iso 4] (Some T3)).
Proof.
  intros fetch r.
  assert (T1 < T2 < T3) as Horder by (unfold T1, T2, T3; lia).
  destruct (get_or_fetch_delta_window Iso.fromisoformat warm_cache "Sensor.Temp"
              (mkEntry [record t0_iso 1; record t1_iso 2; record t2_iso 3] (Some T2))
              T1 T2 T3 fetch false (Some [record t2_iso 9; record t3_iso 4])
              eq_refl eq_refl eq_refl Horder eq_refl)
    as (Hcalls & _ & Hfinal & _ & returned & Hresult & Hreturned & _).
  split; [exact Horder|]. split; [reflexivity|]. split; [exact Hcalls|].
  split.
  - fold r in Hresult. rewrite Hresult, Hreturned. reflexivity.
  - fold r in Hfinal. rewrite Hfinal. reflexivity.
Defined.

(** *** C4 *)

Example update_cache_twice :
  let batch := Some [record t1_iso 2; PStr "not-a-dict"; record t0_iso 1; record t1_iso 7] in
  let c1 := update_cache Iso.fromisoformat enabled_cache "sensor.temp" batch T1 in
  update_cache Iso.fromisoformat c1 "sensor.temp" batch T1 = c1 ∧
  length (data (entry_of c1 "sensor.temp")) = 3%nat.
Proof. by vm_compute. Qed.

(** *** C5 *)

Lemma get_or_fetch_fetch_raises_witness :
  fetch_failing "timeout" (requested_start warm_cache "sensor.temp" T0) T3 false
    = FetchRaise "timeout" ∧
  requested_start warm_cache "sensor.temp" T0 = Some T2 ∧
  get_or_fetch Iso.fromisoformat warm_cache "sensor.temp" T0 T3
    (fetch_failing "timeout") false
    = mkCompleted (Raised "timeout") warm_cache [mkCall (Some T2) T3 false].
Proof.
  split; [reflexivity|]. split; [reflexivity|].
  exact (get_or_fetch_fetch_raises Iso.fromisoformat warm_cache "sensor.temp"
           T0 T3 (fetch_failing "timeout") false "timeout" eq_refl).
Defined.

(** *** C6 *)

Lemma get_or_fetch_disabled_witness :
  enabled init = false ∧
  get_or_fetch Iso.fromisoformat init "sensor.temp" T0 T1
    (fetch_const (Some [record t0_iso 1])) false
    = mkCompleted (Returned (Some [record t0_iso 1])) init
        [mkCall (Some T0) T1 false].
Proof.
  split; [reflexivity|].
  exact (proj1 (get_or_fetch_disabled Iso.fromisoformat init "sensor.temp" T0 T1
                  (fetch_const (Some [record t0_iso 1])) false eq_refl)).
Defined.

(** *** C7 *)

(** The scenario of the specification: empty cache, two records fetched. *)
Lemma get_or_fetch_first_fetch_witness :
  let fetched := [record t0_iso 1; record t1_iso 2] in
  let fetch := fetch_window (Some T0) T1 (Some fetched) in
  let r := get_or_fetch Iso.fromisoformat enabled_cache "sensor.temp" T0 T1 fetch false in
  enabled enabled_cache = true ∧
  cache_data enabled_cache !! lower "sensor.temp" = None ∧
  fetch (Some T0) T1 false = FetchReturn (Some fetched) ∧
  fetched ≠ [] ∧
  fetches r = [mkCall (Some T0) T1 false] ∧
  result r = Returned (Some fetched) ∧
  cache_data (final r) !! "sensor.temp" = Some (mkEntry fetched (Some T1)).
Proof.
  intros fetched fetch r.
  assert (fetched ≠ []) as Hne by discriminate.
  destruct (get_or_fetch_first_fetch Iso.fromisoformat enabled_cache
              "sensor.temp" T0 T1 fetch false fetched eq_refl eq_refl eq_refl Hne)
    as (Hcalls & Hresult & _ & Hentry).
  split; [reflexivity|]. split; [reflexivity|]. split; [reflexivity|].
  split; [exact Hne|]. split; [exact Hcalls|]. split; [exact Hresult|].
  exact Hentry.
Defined.

(** What is returned is the fetched value, not the stored sequence. *)
Example first_fetch_returns_fetched :
  let fetched := [PList [record t1_iso 2; PStr "not-a-dict"; record t0_iso 1]] in
  let r := get_or_fetch Iso.fromisoformat enabled_cache "sensor.temp" T0 T1
             (fetch_const (Some fetched)) false in
  result r = Returned (Some fetched) ∧
  cache_data (final r) !! "sensor.temp"
    = Some (mkEntry [record t0_iso 1; record t1_iso 2] (Some T1)).
Proof. by vm_compute. Qed.

(** *** C8 *)

Lemma update_cache_unwraps_one_level_witness :
  let r := record t0_iso 1 in
  enabled enabled_cache = true ∧
  _get_timestamp Iso.fromisoformat r = Some T0 ∧
  cache_data (update_cache Iso.fromisoformat enabled_cache "sensor.temp"
                (Some [PList [r]]) T0)
    !! "sensor.temp" = Some (mkEntry [r] (Some T0)) ∧
  cache_data (update_cache Iso.fromisoformat enabled_cache "sensor.temp"
                (Some [PList [PList [r]]]) T0)
    !! "sensor.temp" = Some (mkEntry [] None).
Proof.
  intros r.
  destruct (update_cache_unwraps_one_level Iso.fromisoformat enabled_cache
              "sensor.temp" [r] [] [r] r T0 T0 eq_refl eq_refl)
    as (_ & Hdeep & _ & Hone).
  split; [reflexivity|]. split; [reflexivity|]. split.
  - rewrite (Hone eq_refl). reflexivity.
  - rewrite Hdeep. reflexivity.
Defined.

(** *** C9 *)

Lemma update_cache_keeps_stored_item_witness :
  let ent := mkEntry [record t0_iso 1; record t1_iso 2; record t2_iso 3] (Some T2) in
  let batch := [record t1_iso 99; record t3_iso 4] in
  let ent' := entry_of (update_cache Iso.fromisoformat warm_cache "sensor.temp"
                          (Some batch) T3) "sensor.temp" in
  enabled warm_cache = true ∧
  cache_data warm_cache !! lower "sensor.temp" = Some ent ∧
  record t1_iso 2 ∈ data ent ∧
  _get_timestamp Iso.fromisoformat (record t1_iso 2) = Some T1 ∧
  List.filter (at_time Iso.fromisoformat T1) (data ent') = [record t1_iso 2] ∧
  record t1_iso 2 ∈ data ent' ∧
  record t1_iso 99 ∉ added Iso.fromisoformat ent (normalize batch).
Proof.
  intros ent batch ent'.
  assert (record t1_iso 2 ∈ data ent) as Hin by (right; left).
  destruct (update_cache_keeps_stored_item Iso.fromisoformat warm_cache
              "sensor.temp" ent (record t1_iso 2) T1 batch T3
              eq_refl eq_refl Hin eq_refl)
    as (Hsame & Hkept & _ & Hdropped).
  split; [reflexivity|]. split; [reflexivity|]. split; [exact Hin|].
  split; [reflexivity|]. split; [exact Hsame|]. split; [exact Hkept|].
  apply Hdropped; [left|reflexivity].
Defined.

(** *** C10 *)

(** C10 fails as stated: the only item of the batch is a list, hence not a
    mapping, yet the record inside it is stored, because a leading list is
    unwrapped before the merge. *)
Lemma update_cache_unwraps_malformed_item :
  let batch := [PList [record t0_iso 1]] in
  let c := update_cache Iso.fromisoformat enabled_cache "sensor.temp" (Some batch) T0 in
  enabled enabled_cache = true ∧
  cache_data enabled_cache !! lower "sensor.temp" = None ∧
  batch ≠ [] ∧
  Forall (malformed Iso.fromisoformat) batch ∧
  cache_data c !! lower "sensor.temp" = Some (mkEntry [record t0_iso 1] (Some T0)) ∧
  cache_data c !! lower "sensor.temp" ≠ Some (mkEntry [] None).
Proof.
  intros batch c.
  assert (cache_data c !! lower "sensor.temp"
          = Some (mkEntry [record t0_iso 1] (Some T0))) as Hc by by vm_compute.
  split; [reflexivity|]. split; [reflexivity|]. split; [discriminate|].
  split; [by repeat constructor|]. split; [exact Hc|].
  rewrite Hc. discriminate.
Qed.

Lemma update_cache_only_malformed_witness :
  let batch := [PStr "not-a-dict"; PDict [("v", PInt 1)];
                PDict [("last_changed", PStr "yesterday")]] in
  enabled enabled_cache = true ∧
  cache_data enabled_cache !! lower "Sensor.Temp" = None ∧
  batch ≠ [] ∧
  Forall (malformed Iso.fromisoformat) (normalize batch) ∧
  cache_data (update_cache Iso.fromisoformat enabled_cache "Sensor.Temp"
                (Some batch) T0) !! "sensor.temp"
    = Some (mkEntry [] None).
Proof.
  intros batch.
  assert (batch ≠ []) as Hne by discriminate.
  assert (Forall (malformed Iso.fromisoformat) (normalize batch)) as Hbad
    by (repeat (constructor; [reflexivity|]); constructor).
  split; [reflexivity|]. split; [reflexivity|]. split; [exact Hne|].
  split; [exact Hbad|].
  exact (update_cache_only_malformed Iso.fromisoformat enabled_cache
           "Sensor.Temp" batch T0 eq_refl eq_refl Hne Hbad).
Defined.

(** *** Further properties, on concrete records *)

Lemma warm_entry_ok :
  entry_ok Iso.fromisoformat
    (mkEntry [record t0_iso 1; record t1_iso 2; record t2_iso 3] (Some T2)).
Proof.
  apply entry_tight_ok. split; [|split].
  - by repeat constructor.
  - repeat constructor; by vm_compute.
  - reflexivity.
Qed.

Lemma other_entries_untouched_witness :
  "sensor.temp" ≠ lower "Sensor.Humidity" ∧
  cache_data (update_cache Iso.fromisoformat warm_cache "Sensor.Humidity"
                (Some [record t3_iso 55]) T3) !! "sensor.temp"
    = cache_data warm_cache !! "sensor.temp" ∧
  cache_data (final (get_or_fetch Iso.fromisoformat warm_cache "Sensor.Humidity"
                       T3 T3 (fetch_const (Some [record t3_iso 55])) false))
    !! "sensor.temp" = cache_data warm_cache !! "sensor.temp".
Proof.
  assert ("sensor.temp" ≠ lower "Sensor.Humidity") as Hne by discriminate.
  destruct (other_entries_untouched Iso.fromisoformat warm_cache
              "Sensor.Humidity" "sensor.temp" Hne) as (Hupdate & Hfetch).
  split; [exact Hne|]. split.
  - apply Hupdate.
  - apply (Hfetch T3 T3 (fetch_const (Some [record t3_iso 55])) false).
Defined.

Lemma entity_id_case_insensitive_witness :
  lower "SENSOR.Temp" = lower "sensor.temp" ∧
  get_or_fetch Iso.fromisoformat warm_cache "SENSOR.Temp" T1 T3
    (fetch_const (Some [record t3_iso 4])) false
  = get_or_fetch Iso.fromisoformat warm_cache "sensor.temp" T1 T3
      (fetch_const (Some [record t3_iso 4])) false.
Proof.
  split; [reflexivity|].
  apply (entity_id_case_insensitive Iso.fromisoformat warm_cache
           "SENSOR.Temp" "sensor.temp" eq_refl).
Defined.

Lemma warm_cache_keys_lower : keys_lower warm_cache.
Proof.
  intros k ent Hk. unfold warm_cache in Hk. simpl in Hk.
  by apply lookup_singleton_Some in Hk as [<- _].
Qed.

Lemma keys_stay_lower_witness :
  keys_lower warm_cache ∧
  keys_lower (update_cache Iso.fromisoformat warm_cache "Sensor.HUMIDITY"
                (Some [record t3_iso 55]) T3) ∧
  cache_data (update_cache Iso.fromisoformat warm_cache "Sensor.HUMIDITY"
                (Some [record t3_iso 55]) T3) !! "sensor.humidity"
    = Some (mkEntry [record t3_iso 55] (Some T3)).
Proof.
  split; [exact warm_cache_keys_lower|]. split; [|by vm_compute].
  apply (keys_stay_lower Iso.fromisoformat warm_cache warm_cache_keys_lower).
Defined.

Lemma entries_persist_latest_grows_witness :
  let ent := mkEntry [record t0_iso 1; record t1_iso 2; record t2_iso 3] (Some T2) in
  cache_data warm_cache !! "sensor.temp" = Some ent ∧
  ∃ ent',
    cache_data (final (get_or_fetch Iso.fromisoformat warm_cache "sensor.temp"
                         T3 T3 (fetch_const (Some [record t3_iso 4])) false))
      !! "sensor.temp" = Some ent' ∧
    no_earlier (latest ent) (latest ent').
Proof.
  intros ent. split; [reflexivity|].
  apply (entries_persist_latest_grows Iso.fromisoformat warm_cache
           "sensor.temp" ent eq_refl).
Defined.

Lemma update_cache_stored_items_witness :
  let batch := [record t1_iso 99; PStr "not-a-dict"; record t3_iso 4] in
  let before := entry_of warm_cache "sensor.temp" in
  let after := entry_of (update_cache Iso.fromisoformat warm_cache "sensor.temp"
                           (Some batch) T3) "sensor.temp" in
  enabled warm_cache = true ∧ batch ≠ [] ∧
  data after ≡ₚ data before ++ [record t3_iso 4].
Proof.
  intros batch before after.
  assert (batch ≠ []) as Hne by discriminate.
  split; [reflexivity|]. split; [exact Hne|].
  apply (update_cache_stored_items Iso.fromisoformat warm_cache "sensor.temp"
           batch T3 eq_refl Hne).
Defined.

Lemma get_or_fetch_returns_window_witness :
  let ent := mkEntry [record t0_iso 1; record t1_iso 2; record t2_iso 3] (Some T2) in
  let fetch := fetch_window (Some T2) T2 (Some [record t3_iso 4; record t2_iso 9]) in
  let r := get_or_fetch Iso.fromisoformat warm_cache "sensor.temp" T1 T2 fetch false in
  enabled warm_cache = true ∧
  cache_data warm_cache !! lower "sensor.temp" = Some ent ∧
  entry_ok Iso.fromisoformat ent ∧
  fetch (latest ent) T2 false = FetchReturn (Some [record t3_iso 4; record t2_iso 9]) ∧
  result r = Returned (Some [record t1_iso 2; record t2_iso 3]) ∧
  data (entry_of (final r) "sensor.temp")
    = [record t1_iso 2; record t2_iso 3; record t3_iso 4].
Proof.
  intros ent fetch r.
  destruct (get_or_fetch_returns_window Iso.fromisoformat warm_cache
              "sensor.temp" ent T1 T2 fetch false
              (Some [record t3_iso 4; record t2_iso 9])
              eq_refl eq_refl warm_entry_ok eq_refl) as (Hresult & Hstored & _).
  split; [reflexivity|]. split; [reflexivity|]. split; [exact warm_entry_ok|].
  split; [reflexivity|]. split.
  - fold r in Hresult. rewrite Hresult. reflexivity.
  - fold r in Hstored. rewrite Hstored. reflexivity.
Defined.

Lemma get_or_fetch_nothing_fetched_witness :
  let ent := mkEntry [record t0_iso 1; record t1_iso 2; record t2_iso 3] (Some T2) in
  let known := get_or_fetch Iso.fromisoformat warm_cache "sensor.temp" T1 T1
                 (fetch_const None) false in
  let unknown := get_or_fetch Iso.fromisoformat warm_cache "sensor.humidity" T1 T1
                   (fetch_const (Some [])) false in
  enabled warm_cache = true ∧
  fetch_const None (requested_start warm_cache "sensor.temp" T1) T1 false
    = FetchReturn None ∧
  fetch_const (Some []) (requested_start warm_cache "sensor.humidity" T1) T1 false
    = FetchReturn (Some []) ∧
  truthy_data None = false ∧ truthy_data (Some []) = false ∧
  cache_data warm_cache !! lower "sensor.temp" = Some ent ∧
  cache_data warm_cache !! lower "sensor.humidity" = None ∧
  fetches known = [mkCall (Some T2) T1 false] ∧
  result known = Returned (Some [record t1_iso 2]) ∧
  final known
    = with_entry warm_cache "sensor.temp"
        (mkEntry [record t1_iso 2; record t2_iso 3] (Some T2)) ∧
  fetches unknown = [mkCall (Some T1) T1 false] ∧
  result unknown = Returned (Some []) ∧
  final unknown = warm_cache.
Proof.
  intros ent known unknown.
  destruct (get_or_fetch_nothing_fetched Iso.fromisoformat warm_cache
              "sensor.temp" T1 T1 (fetch_const None) false None
              eq_refl eq_refl eq_refl) as (Hcalls & Hknown).
  destruct (get_or_fetch_nothing_fetched Iso.fromisoformat warm_cache
              "sensor.humidity" T1 T1 (fetch_const (Some [])) false (Some [])
              eq_refl eq_refl eq_refl) as (Hcalls' & Hunknown).
  change (cache_data warm_cache !! lower "sensor.temp") with (Some ent) in Hknown.
  change (cache_data warm_cache !! lower "sensor.humidity")
    with (@None CacheEntry) in Hunknown.
  cbv zeta in Hknown.
  destruct Hknown as (_ & _ & Hfinal & returned & Hresult & Hreturned & _).
  destruct Hunknown as (Hresult' & Hfinal').
  do 7 (split; [reflexivity|]).
  split; [exact Hcalls|]. split.
  { fold known in Hresult. rewrite Hresult, Hreturned. reflexivity. }
  split.
  { fold known in Hfinal. rewrite Hfinal. reflexivity. }
  split; [exact Hcalls'|]. split; [exact Hresult'|exact Hfinal'].
Defined.

Lemma next_fetch_starts_at_latest_witness :
  let first := [PStr "not-a-dict"; PDict [("v", PInt 1)]] in
  let c' := final (get_or_fetch Iso.fromisoformat enabled_cache "sensor.temp"
                     T0 T1 (fetch_const (Some first)) false) in
  enabled enabled_cache = true ∧ first ≠ [] ∧
  fetches (get_or_fetch Iso.fromisoformat c' "sensor.temp" T0 T2
             (fetch_const None) true)
    = [mkCall None T2 true].
Proof.
  intros first c'.
  assert (first ≠ []) as Hne by discriminate.
  destruct (next_fetch_starts_at_latest Iso.fromisoformat enabled_cache
              "sensor.temp" T0 T1 (fetch_const (Some first)) false first
              T0 T2 (fetch_const None) true eq_refl eq_refl Hne) as (Hcalls & _).
  split; [reflexivity|]. split; [exact Hne|]. exact Hcalls.
Defined.

Lemma warm_cache_distinct :
  every_entry (λ ent, distinct_timestamps Iso.fromisoformat (data ent)) warm_cache.
Proof.
  intros k ent Hk. unfold warm_cache in Hk. simpl in Hk.
  apply lookup_singleton_Some in Hk as [_ <-].
  change (NoDup [T0; T1; T2]). by apply (bool_decide_unpack _).
Qed.

Lemma distinct_timestamps_kept_witness :
  let batch := Some [record t2_iso 9; record t3_iso 4] in
  every_entry (λ ent, distinct_timestamps Iso.fromisoformat (data ent)) warm_cache ∧
  distinct_timestamps Iso.fromisoformat (normalize (default [] batch)) ∧
  every_entry (λ ent, distinct_timestamps Iso.fromisoformat (data ent))
    (update_cache Iso.fromisoformat warm_cache "sensor.temp" batch T3).
Proof.
  intros batch.
  assert (distinct_timestamps Iso.fromisoformat (normalize (default [] batch)))
    as Hbatch.
  { change (NoDup [T2; T3]). by apply (bool_decide_unpack _). }
  split; [exact warm_cache_distinct|]. split; [exact Hbatch|].
  apply (distinct_timestamps_kept Iso.fromisoformat warm_cache "sensor.temp"
           warm_cache_distinct); exact Hbatch.
Defined.

Lemma get_or_fetch_repeat_witness :
  let ent := mkEntry [record t0_iso 1; record t1_iso 2; record t2_iso 3] (Some T2) in
  let fetch := fetch_const (Some [record t0_iso 7; record t3_iso 4]) in
  let r1 := get_or_fetch Iso.fromisoformat warm_cache "sensor.temp" T1 T3 fetch false in
  let r2 := get_or_fetch Iso.fromisoformat (final r1) "sensor.temp" T1 T3 fetch false in
  enabled warm_cache = true ∧
  cache_data warm_cache !! lower "sensor.temp" = Some ent ∧
  entry_ok Iso.fromisoformat ent ∧
  result r1 = Returned (Some [record t1_iso 2; record t2_iso 3; record t3_iso 4]) ∧
  result r2 = result r1 ∧ final r2 = final r1.
Proof.
  intros ent fetch r1 r2.
  split; [reflexivity|]. split; [reflexivity|]. split; [exact warm_entry_ok|].
  split; [by vm_compute|].
  apply (get_or_fetch_repeat Iso.fromisoformat warm_cache "sensor.temp" ent
           T1 T3 fetch false (Some [record t0_iso 7; record t3_iso 4])
           eq_refl eq_refl warm_entry_ok eq_refl eq_refl).
Defined.

Lemma update_cache_entities_commute_witness :
  lower "Sensor.Temp" ≠ lower "sensor.humidity" ∧
  update_cache Iso.fromisoformat
    (update_cache Iso.fromisoformat warm_cache "Sensor.Temp" (Some [record t3_iso 4]) T3)
    "sensor.humidity" (Some [record t0_iso 55]) T0
  = update_cache Iso.fromisoformat
      (update_cache Iso.fromisoformat warm_cache "sensor.humidity"
         (Some [record t0_iso 55]) T0)
      "Sensor.Temp" (Some [record t3_iso 4]) T3.
Proof.
  assert (lower "Sensor.Temp" ≠ lower "sensor.humidity") as Hne by discriminate.
  split; [exact Hne|].
  apply (update_cache_entities_commute Iso.fromisoformat warm_cache
           "Sensor.Temp" _ T3 "sensor.humidity" _ T0 Hne).
Defined.

Lemma successive_prunes_witness :
  let ent := mkEntry [record t0_iso 1; record t1_iso 2; record t2_iso 3] (Some T2) in
  let c1 := final (get_or_fetch Iso.fromisoformat warm_cache "sensor.temp"
                     T2 T3 (fetch_const None) false) in
  let c2 := final (get_or_fetch Iso.fromisoformat c1 "sensor.temp"
                     T0 T3 (fetch_const (Some [])) false) in
  enabled warm_cache = true ∧
  cache_data warm_cache !! lower "sensor.temp" = Some ent ∧
  entry_ok Iso.fromisoformat ent ∧
  data (entry_of c2 "sensor.temp") = [record t2_iso 3] ∧
  latest (entry_of c2 "sensor.temp") = Some T2.
Proof.
  intros ent c1 c2.
  destruct (successive_prunes Iso.fromisoformat warm_cache "sensor.temp" ent
              T2 T3 (fetch_const None) false None
              T0 T3 (fetch_const (Some [])) false (Some [])
              eq_refl eq_refl warm_entry_ok eq_refl eq_refl eq_refl eq_refl)
    as (Hdata & Hlatest).
  split; [reflexivity|]. split; [reflexivity|]. split; [exact warm_entry_ok|].
  split.
  - fold c1 c2 in Hdata. rewrite Hdata. reflexivity.
  - exact Hlatest.
Defined.
